(** * Smart assistant for task automation: the reading session and its
      command interpreter (app3.py)

    A shallow embedding of the server side of [app3.py]: the language
    registry lookup, the command parser, the reading session (content,
    cursor, target language), the two transcription pipelines and the
    command dispatcher, followed by the properties of the specification
    that concern them.

    Conventions of the embedding.
    - A Python [str] is a [string]; a character stands for the code point
      of the same number, so the model covers text over the code points
      below 256.  [lower], [strip] and [split] follow Python on that range.
    - A Python [int] is a [Z]; slicing follows Python for every pair of
      indices, negative ones included.
    - The three module-level variables [current_file_content],
      [read_position] and [translation_language] form the record
      [Session]; a function that declares them [global] takes the session
      and returns the new one.
    - Everything outside the repository (googletrans, SpeechRecognition,
      moviepy, pytube, requests, the file system) is a field of [Env]:
      what the call returns, or the exception it raises.
    - Of a response dictionary the keys [status], [action], [chunk] and
      [has_content] are kept; [message], [progress] and the payload of the
      web and video actions (texts, a float and URLs that no control flow
      reads) are left out. *)

From Stdlib Require Import Bool Ascii String List ZArith Lia.
Import ListNotations.

Open Scope string_scope.
Open Scope Z_scope.

(** ** Python strings *)

Module PyStr.

(** [len(s)] *)
Definition len (s : string) : Z := Z.of_nat (String.length s).

(** [bool(s)]: a string is true when it is not empty. *)
Definition truthy (s : string) : bool :=
  match s with
  | EmptyString => false
  | String _ _ => true
  end.

Fixpoint take (n : nat) (s : string) : string :=
  match n, s with
  | O, _ => EmptyString
  | S _, EmptyString => EmptyString
  | S k, String c r => String c (take k r)
  end.

Fixpoint drop (n : nat) (s : string) : string :=
  match n, s with
  | O, _ => s
  | S _, EmptyString => EmptyString
  | S k, String _ r => drop k r
  end.

(** The bound of a slice as Python clamps it: a negative index counts from
    the end, and both ends are cut to [0 .. len]. *)
Definition clamp (l i : Z) : Z :=
  if i <? 0 then Z.max (i + l) 0 else Z.min i l.

(** [s[i:j]] *)
Definition slice (s : string) (i j : Z) : string :=
  let a := clamp (len s) i in
  let b := clamp (len s) j in
  if a <? b then take (Z.to_nat (b - a)) (drop (Z.to_nat a) s)
  else EmptyString.

Definition in_range (lo hi n : N) : bool := (N.leb lo n && N.leb n hi)%bool.

(** [c.lower()] on the code points below 256: A-Z and the accented capitals
    of Latin-1 move up by 32. *)
Definition lower_char (c : ascii) : ascii :=
  let n := N_of_ascii c in
  if (in_range 65 90 n || in_range 192 214 n || in_range 216 222 n)%bool
  then ascii_of_N (n + 32) else c.

(** [s.lower()] *)
Fixpoint lower (s : string) : string :=
  match s with
  | EmptyString => EmptyString
  | String c r => String (lower_char c) (lower r)
  end.

(** [c.isspace()] on the code points below 256. *)
Definition is_space (c : ascii) : bool :=
  let n := N_of_ascii c in
  (in_range 9 13 n || in_range 28 32 n || N.eqb n 133 || N.eqb n 160)%bool.

(** [s.startswith(p)] *)
Fixpoint startswith (p s : string) : bool :=
  match p, s with
  | EmptyString, _ => true
  | String _ _, EmptyString => false
  | String a p', String b s' => (Ascii.eqb a b && startswith p' s')%bool
  end.

(** [sub in s] *)
Fixpoint contains (sub s : string) : bool :=
  (startswith sub s ||
   match s with
   | EmptyString => false
   | String _ r => contains sub r
   end)%bool.

(** [s.endswith(p)] *)
Definition endswith (p s : string) : bool :=
  (Nat.leb (String.length p) (String.length s) &&
   String.eqb (drop (String.length s - String.length p) s) p)%bool.

(** The text before and after the first occurrence of [sep] (not empty). *)
Fixpoint split_first (sep s : string) : option (string * string) :=
  if startswith sep s then Some (EmptyString, drop (String.length sep) s)
  else match s with
       | EmptyString => None
       | String c r =>
           match split_first sep r with
           | Some (a, b) => Some (String c a, b)
           | None => None
           end
       end.

(** [s.split(sep, 1)] *)
Definition split1 (sep s : string) : list string :=
  match split_first sep s with
  | Some (a, b) => [a; b]
  | None => [s]
  end.

(** [s.split(sep)] for a separator that is not empty: occurrences are
    found from the left and do not overlap ([skip] characters of a found
    separator are still to be passed). *)
Fixpoint split_aux (sep : string) (skip : nat) (acc s : string) : list string :=
  match s with
  | EmptyString => [acc]
  | String c r =>
      match skip with
      | S k => split_aux sep k acc r
      | O =>
          if startswith sep s
          then acc :: split_aux sep (String.length sep - 1) EmptyString r
          else split_aux sep O (acc ++ String c EmptyString) r
      end
  end.

Definition split (sep s : string) : list string :=
  split_aux sep O EmptyString s.

(** [s.replace(old, new)] for [old] not empty. *)
Fixpoint replace_aux (old new : string) (skip : nat) (s : string) : string :=
  match s with
  | EmptyString => EmptyString
  | String c r =>
      match skip with
      | S k => replace_aux old new k r
      | O =>
          if startswith old s
          then new ++ replace_aux old new (String.length old - 1) r
          else String c (replace_aux old new O r)
      end
  end.

Definition replace (old new s : string) : string := replace_aux old new O s.

Fixpoint lstrip (s : string) : string :=
  match s with
  | EmptyString => EmptyString
  | String c r => if is_space c then lstrip r else s
  end.

Fixpoint rstrip_with (p : ascii -> bool) (s : string) : string :=
  match s with
  | EmptyString => EmptyString
  | String c r =>
      match rstrip_with p r with
      | EmptyString => if p c then EmptyString else String c EmptyString
      | String _ _ as r' => String c r'
      end
  end.

(** [s.strip()] *)
Definition strip (s : string) : string := rstrip_with is_space (lstrip s).

(** [s.rstrip('.')] *)
Definition rstrip_dot (s : string) : string :=
  rstrip_with (Ascii.eqb "."%char) s.

(** [s.split()]: the maximal runs of characters that are not white space. *)
Fixpoint words_aux (acc s : string) : list string :=
  match s with
  | EmptyString => if truthy acc then [acc] else []
  | String c r =>
      if is_space c
      then (if truthy acc then acc :: words_aux EmptyString r
            else words_aux EmptyString r)
      else words_aux (acc ++ String c EmptyString) r
  end.

Definition words (s : string) : list string := words_aux EmptyString s.

(** [sep.join(l)] *)
Fixpoint join (sep : string) (l : list string) : string :=
  match l with
  | [] => EmptyString
  | [x] => x
  | x :: r => x ++ sep ++ join sep r
  end.

(** [s in l] for a list or tuple of strings. *)
Definition mem (s : string) (l : list string) : bool :=
  existsb (String.eqb s) l.

(** [any(k in s for k in l)] *)
Definition contains_any (l : list string) (s : string) : bool :=
  existsb (fun k => contains k s) l.

End PyStr.

Import PyStr.

(** [os.path.splitext(p)[1]]: the extension starts at the last dot of the
    last path component, unless that component has only leading dots
    before it.  [seps] are the path separators of the platform. *)
Module OsPath.

Fixpoint rfind_from (c : ascii) (i : Z) (s : string) : Z :=
  match s with
  | EmptyString => -1
  | String a r =>
      let j := rfind_from c (i + 1) r in
      if 0 <=? j then j else if Ascii.eqb a c then i else -1
  end.

(** [p.rfind(c)] *)
Definition rfind (c : ascii) (p : string) : Z := rfind_from c 0 p.

Fixpoint has_non_dot (s : string) : bool :=
  match s with
  | EmptyString => false
  | String a r => (negb (Ascii.eqb a "."%char) || has_non_dot r)%bool
  end.

Definition splitext_ext (seps : list ascii) (p : string) : string :=
  let sepIndex := fold_right (fun c m => Z.max (rfind c p) m) (-1) seps in
  let dotIndex := rfind "."%char p in
  if (sepIndex <? dotIndex) && has_non_dot (slice p (sepIndex + 1) dotIndex)
  then drop (Z.to_nat dotIndex) p
  else EmptyString.

(** The separators of [ntpath] and of [posixpath]. *)
Definition separators (os_name : string) : list ascii :=
  if String.eqb os_name "nt" then ["\"%char; "/"%char] else ["/"%char].

End OsPath.

(** ** Data model *)

(** What a call into a library does: it returns, or it raises.  The
    handlers of the source tell three classes of exception apart. *)
Inductive exn : Type :=
  | UnknownValueError   (* sr.UnknownValueError *)
  | RequestError        (* sr.RequestError *)
  | OtherException.     (* any other Exception *)

Inductive outcome (A : Type) : Type :=
  | Ok (a : A)
  | Raise (e : exn).

Arguments Ok {A} a.
Arguments Raise {A} e.

Definition bind {A B : Type} (m : outcome A) (k : A -> outcome B) : outcome B :=
  match m with
  | Ok a => k a
  | Raise e => Raise e
  end.

Notation "x <- m ;; k" := (bind m (fun x => k))
  (at level 61, m at next level, right associativity).

(** The global state of the server (lines 58-61). *)
Record Session : Type := mkSession {
  current_file_content : string;
  read_position : Z;
  translation_language : string
}.

Definition INITIAL_FILE_CONTENT : string := "".
Definition INITIAL_READ_POSITION : Z := 0.
Definition INITIAL_TRANSLATION_LANGUAGE : string := "en".

Definition initial_session : Session :=
  mkSession INITIAL_FILE_CONTENT INITIAL_READ_POSITION
            INITIAL_TRANSLATION_LANGUAGE.

Definition set_read_position (p : Z) (s : Session) : Session :=
  mkSession (current_file_content s) p (translation_language s).

Definition set_translation_language (l : string) (s : Session) : Session :=
  mkSession (current_file_content s) (read_position s) l.

(** The three assignments that load a text: content, cursor 0 and,
    in the transcription pipelines, the target language. *)
Definition load (text : string) (target : string) (s : Session) : Session :=
  mkSession text 0 target.

Inductive Status : Type :=
  | status_success | status_error | status_info | status_action
  | status_reading | status_done.

Inductive Action : Type :=
  | start_read | stop_read | open_url | play_youtube_embedded
  | play_youtube | set_rate.

Record Response : Type := mkResponse {
  status : Status;
  action : option Action;
  chunk : option string;
  has_content : option bool
}.

(** [{"status": st, "message": ...}] *)
Definition plain (st : Status) : Response := mkResponse st None None None.

(** [{"status": st, "action": a, "message": ...}] *)
Definition with_action (st : Status) (a : Action) : Response :=
  mkResponse st (Some a) None None.

(** [response['has_content'] = b] *)
Definition set_has_content (b : bool) (r : Response) : Response :=
  mkResponse (status r) (action r) (chunk r) (Some b).

(** [response['action'] = a] *)
Definition set_action (a : Action) (r : Response) : Response :=
  mkResponse (status r) (Some a) (chunk r) (has_content r).

Definition Status_eqb (a b : Status) : bool :=
  match a, b with
  | status_success, status_success | status_error, status_error
  | status_info, status_info | status_action, status_action
  | status_reading, status_reading | status_done, status_done => true
  | _, _ => false
  end.

(** [response.get('action') == 'start_read'] *)
Definition is_start_read (r : Response) : bool :=
  match action r with
  | Some start_read => true
  | _ => false
  end.

(** The libraries and the machine around the server.  [LANGUAGES] is the
    table of googletrans, a dictionary in insertion order: (code, name).
    A speech or video source is named by the file name or the video id it
    comes from. *)
Record Env : Type := mkEnv {
  LANGUAGES : list (string * string);
  MOVIEPY_AVAILABLE : bool;
  PYTUBE_AVAILABLE : bool;
  REQUESTS_AVAILABLE : bool;
  (* translator.translate(text, dest=lang).text *)
  translator_translate : string -> string -> outcome string;
  (* translator.detect(text).lang *)
  translator_detect : string -> outcome string;
  (* recognizer.record + recognizer.recognize_google(audio, language=lang) *)
  recognize_google : string -> string -> outcome string;
  (* VideoFileClip(path).audio.write_audiofile(wav) *)
  extract_audio : string -> outcome unit;
  (* the request and the regular expression inside search_youtube_simple:
     the first video id found, None when the request fails *)
  youtube_search : string -> option string;
  (* YouTube(url).streams.filter(only_audio=True).first() is not None *)
  yt_audio_stream : string -> outcome bool;
  (* audio_stream.download(...) has produced a file *)
  yt_download : string -> outcome bool;
  (* yt.title *)
  yt_title : string -> outcome string;
  (* os.path.exists(os.path.join(FILE_STORAGE_PATH, name)) *)
  path_exists : string -> bool;
  (* extract_file_content(full_path): the text of a document *)
  extract_file_content : string -> outcome string;
  os_name : string;
  (* os.startfile(path), subprocess.call(['xdg-open', path]) *)
  open_media : string -> outcome unit;
  (* float(text) does not raise ValueError *)
  float_parses : string -> bool
}.

(** [x if x else d] for an optional string: [None] and the empty string
    are both false. *)
Definition truthy_opt (o : option string) : bool :=
  match o with
  | Some x => truthy x
  | None => false
  end.

Definition or_else (o : option string) (d : string) : string :=
  match o with
  | Some x => if truthy x then x else d
  | None => d
  end.

(** ** Language registry (lines 82-87) *)

(** [LANGUAGES[code]]: the keys of a dictionary are distinct, so the first
    pair with the key is the only one. *)
Fixpoint dict_get (table : list (string * string)) (code : string) : option string :=
  match table with
  | [] => None
  | (c, name) :: r => if String.eqb c code then Some name else dict_get r code
  end.

Fixpoint get_language_code (table : list (string * string)) (language_name : string)
  : option string :=
  match table with
  | [] => None
  | (code, name) :: r =>
      if String.eqb (lower name) (lower language_name) then Some code
      else get_language_code r language_name
  end.

(** ** Command parser *)

Definition SUPPORTED_EXTENSIONS : list string :=
  [".txt"; ".pdf"; ".docx"; ".pptx"; ".mp4"; ".mov"; ".avi"; ".mkv"; ".wmv"].

(** [s.split(sep, 1)[0]] and [s.split(sep)[0]] *)
Definition before_first (sep s : string) : string :=
  match split_first sep s with
  | Some (a, _) => a
  | None => s
  end.

(** [s.split(sep, 1)[1]], taken where [sep in s] holds. *)
Definition after_first (sep s : string) : string :=
  match split_first sep s with
  | Some (_, b) => b
  | None => EmptyString
  end.

(** [s.split(sep)[-1]] *)
Definition after_last (sep s : string) : string :=
  last (split sep s) EmptyString.

(** Lines 100-104: the command up to the first supported extension found,
    the extensions tried in the order of the tuple. *)
Fixpoint clean_command_of (exts : list string) (command : string) : string :=
  match exts with
  | [] => command
  | ext :: r =>
      if contains ext command then strip (before_first ext command)
      else clean_command_of r command
  end.

(** Lines 109-113: the words up to a literal [from]. *)
Fixpoint target_name_parts (parts : list string) : list string :=
  match parts with
  | [] => []
  | part :: r =>
      if String.eqb part "from" then [] else part :: target_name_parts r
  end.

(** Lines 122-127: the first prefix of one, two or three words that names
    a language with a non-empty code. *)
Fixpoint probe_source (table : list (string * string)) (parts : list string)
  (indices : list nat) : option string :=
  match indices with
  | [] => None
  | i :: r =>
      let code := get_language_code table (join " " (firstn (S i) parts)) in
      if truthy_opt code then code else probe_source table parts r
  end.

Definition is_none {A : Type} (o : option A) : bool :=
  match o with
  | None => true
  | Some _ => false
  end.

Definition opt_eqb (o : option string) (x : string) : bool :=
  match o with
  | Some y => String.eqb y x
  | None => false
  end.

(** Lines 89-142.  The function declares [translation_language] global:
    it takes the session and returns it. *)
Definition extract_language_codes (table : list (string * string))
  (command0 : string) (s : Session)
  : (option string * option string) * Session :=
  let command := lower command0 in
  let clean_command := clean_command_of SUPPORTED_EXTENSIONS command in
  (* 1. target language *)
  let target_code :=
    if contains "translate to" clean_command then
      let parts := words (strip (after_first "translate to" clean_command)) in
      get_language_code table (join " " (target_name_parts parts))
    else None in
  (* 2. source language *)
  let source_code :=
    if contains "from" clean_command then
      let parts := words (strip (after_first "from" clean_command)) in
      probe_source table parts (seq 0 (Nat.min 3 (List.length parts)))
    else None in
  (* 3. defaults *)
  let target_code :=
    if is_none target_code &&
       (contains "transcribe" command || contains "translate" command)
    then Some (translation_language s) else target_code in
  (* 4. regional code for speech recognition *)
  let source_code :=
    if (opt_eqb source_code "hi" ||
        (contains "transcribe" command && is_none source_code)) &&
       (contains "hindi" command || contains "hinglish" command)
    then Some "hi-IN" else source_code in
  let source_code :=
    if is_none source_code && contains "transcribe" command
    then Some "en" else source_code in
  ((target_code, source_code), s).

Definition file_keywords : list string :=
  ["open"; "read"; "play"; "transcribe"; "file"; "document"; "video";
   "docx"; "pdf"; "pptx"; "txt"; "mp4"; "mov"; "avi"; "mkv"; "wmv"].

(** Lines 164-166: the candidate cut at each separator in turn. *)
Fixpoint cut_at_separators (seps : list string) (candidate : string) : string :=
  match seps with
  | [] => candidate
  | sep :: r =>
      cut_at_separators r
        (if contains sep candidate then before_first sep candidate
         else candidate)
  end.

(** Lines 158-172: the keyword loop. *)
Fixpoint filename_loop (keywords : list string) (command : string) : option string :=
  match keywords with
  | [] => None
  | keyword :: r =>
      if contains keyword command then
        let candidate :=
          cut_at_separators [" and "; " to "; " in "; " from "]
            (strip (after_first keyword command)) in
        if contains "." candidate && (3 <? len candidate)
        then Some (rstrip_dot (strip candidate))
        else filename_loop r command
      else filename_loop r command
  end.

(** Lines 144-172. *)
Definition extract_filename_from_command (command0 : string) : option string :=
  let command := lower command0 in
  let command := replace " dot " "." command in
  let command := replace " point " "." command in
  let command := replace " mp 4" " mp4" command in
  filename_loop file_keywords command.

Definition triggers : list string :=
  ["play "; "search for "; "search "; "find "; "show "; "watch ";
   "transcribe "; "translate "].

(** Lines 423-426. *)
Fixpoint strip_trigger (ts : list string) (command : string) : string :=
  match ts with
  | [] => command
  | trigger :: r =>
      if startswith trigger command
      then strip (drop (String.length trigger) command)
      else strip_trigger r command
  end.

(** Lines 435-439. *)
Fixpoint strip_languages (table : list (string * string)) (command : string) : string :=
  match table with
  | [] => command
  | (_, lang_name) :: r =>
      let to_name := "to " ++ lower lang_name in
      let from_name := "from " ++ lower lang_name in
      let command :=
        if contains to_name command
        then strip (replace to_name "" command) else command in
      let command :=
        if contains from_name command
        then strip (replace from_name "" command) else command in
      strip_languages r command
  end.

(** Lines 417-443. *)
Definition extract_youtube_query (table : list (string * string))
  (command0 : string) : option string :=
  let command := strip (lower command0) in
  let command := strip_trigger triggers command in
  let command :=
    if endswith "on youtube" command then strip (slice command 0 (-10))
    else if endswith "in youtube" command then strip (slice command 0 (-10))
    else if endswith "youtube" command then strip (slice command 0 (-7))
    else command in
  let command := strip_languages table command in
  let command := strip (replace " with " " " (replace " and " " " command)) in
  if truthy command then Some (join " " (words command)) else None.

(** ** Reading session *)

(** Lines 66-78. *)
Definition handle_reset_command (s : Session) : Response * Session :=
  (mkResponse status_success (Some stop_read) None (Some false),
   mkSession INITIAL_FILE_CONTENT INITIAL_READ_POSITION (translation_language s)).

(** Lines 579-584: the chunk as it is delivered; an exception of the
    translator is swallowed. *)
Definition translated_chunk (env : Env) (target original_chunk : string) : string :=
  if negb (String.eqb target "en") then
    match translator_translate env original_chunk target with
    | Ok text => text
    | Raise _ => original_chunk
    end
  else original_chunk.

(** Lines 565-593. *)
Definition get_next_chunk (env : Env) (chunk_size : Z) (s : Session)
  : Response * Session :=
  let content := current_file_content s in
  if negb (truthy content) then
    (mkResponse status_done None (Some "") None, s)
  else if len content <=? read_position s then
    (mkResponse status_done None (Some "") None,
     set_read_position (len content) s)
  else
    let chunk_end := Z.min (read_position s + chunk_size) (len content) in
    let original_chunk := slice content (read_position s) chunk_end in
    (mkResponse status_reading None
       (Some (translated_chunk env (translation_language s) original_chunk))
       None,
     set_read_position chunk_end s).

(** Lines 595-610. *)
Definition handle_translation_command (env : Env) (command : string) (s : Session)
  : Response * Session :=
  if Nat.ltb 1 (List.length (split "to" command)) then
    let lang_name := strip (after_last "to" command) in
    match get_language_code (LANGUAGES env) lang_name with
    | Some lang_code =>
        if truthy lang_code
        then (plain status_success, set_translation_language lang_code s)
        else (plain status_error, s)
    | None => (plain status_error, s)
    end
  else (plain status_info, s).

(** Lines 612-642. *)
Definition handle_control_command (env : Env) (command : string) (s : Session)
  : Response * Session :=
  if startswith "set reading speed to" command then
    if float_parses env (strip (after_last "to" command))
    then (with_action status_action set_rate, s)
    else (plain status_error, s)
  else if String.eqb command "restart" then
    if negb (truthy (current_file_content s)) then (plain status_info, s)
    else (with_action status_action start_read, set_read_position 0 s)
  else if String.eqb command "resume" then
    if negb (truthy (current_file_content s)) then (plain status_info, s)
    else if len (current_file_content s) <=? read_position s
    then (plain status_info, s)
    else (with_action status_action start_read, s)
  else if mem command ["stop"; "pause"] then (plain status_info, s)
  else (plain status_info, s).

(** ** Transcription pipelines *)

(** Lines 246-261 and 344-358: the transcript, translated when its detected
    language is not the requested target. *)
Definition detect_and_translate (env : Env) (transcribed_text target : string)
  : outcome string :=
  actual_source_lang_code <- translator_detect env transcribed_text ;;
  if negb (String.eqb actual_source_lang_code target)
  then translator_translate env transcribed_text target
  else Ok transcribed_text.

(** Lines 228-261: the body of the [try] of the local pipeline. *)
Definition video_try_block (env : Env) (file_name target source : string)
  : outcome string :=
  _ <- extract_audio env file_name ;;
  transcribed_text <- recognize_google env file_name source ;;
  if negb (truthy transcribed_text) then Raise UnknownValueError
  else detect_and_translate env transcribed_text target.

(** Lines 212-288.  Each [except] clause returns an error response; the
    [finally] clause deletes the temporary file and reads no global. *)
Definition transcribe_video_audio (env : Env)
  (file_name requested_target_lang requested_source_lang : string) (s : Session)
  : Response * Session :=
  if negb (MOVIEPY_AVAILABLE env) then (plain status_error, s)
  else
    match video_try_block env file_name requested_target_lang
            requested_source_lang with
    | Raise _ => (plain status_error, s)
    | Ok final_content =>
        if negb (truthy final_content) then (plain status_error, s)
        else (with_action status_success start_read,
              load final_content requested_target_lang s)
    end.

(** Lines 384-415. *)
Definition search_youtube_simple (env : Env) (query : string) : option string :=
  if negb (REQUESTS_AVAILABLE env) then None else youtube_search env query.

(** Lines 315-358: the body of the [try] of the remote pipeline; [None] is
    the [return] inside it, when the video has no audio-only stream. *)
Definition youtube_try_block (env : Env) (video_id target source : string)
  : outcome (option string) :=
  audio_stream <- yt_audio_stream env video_id ;;
  if negb audio_stream then Ok None
  else
    downloaded <- yt_download env video_id ;;
    if negb downloaded then Raise OtherException
    else
      transcribed_text <- recognize_google env video_id source ;;
      if negb (truthy transcribed_text) then Raise UnknownValueError
      else
        final_content <- detect_and_translate env transcribed_text target ;;
        Ok (Some final_content).

(** Lines 292-379.  The response is built after the three assignments, and
    building it reads [yt.title]: an exception raised there leaves the
    function with the session already loaded. *)
Definition transcribe_youtube_audio_real (env : Env)
  (query requested_target_lang requested_source_lang : string) (s : Session)
  : outcome Response * Session :=
  if negb (PYTUBE_AVAILABLE env) then (Ok (plain status_error), s)
  else if negb (REQUESTS_AVAILABLE env) then (Ok (plain status_error), s)
  else
    let video_id := search_youtube_simple env query in
    if negb (truthy_opt video_id) then (Ok (plain status_error), s)
    else
      let video_id := or_else video_id "" in
      match youtube_try_block env video_id requested_target_lang
              requested_source_lang with
      | Raise _ => (Ok (plain status_error), s)
      | Ok None => (Ok (plain status_error), s)
      | Ok (Some final_content) =>
          let s' := load final_content requested_target_lang s in
          match yt_title env video_id with
          | Ok _ => (Ok (with_action status_success start_read), s')
          | Raise e => (Raise e, s')
          end
      end.

(** Lines 445-481. *)
Definition handle_youtube_command (env : Env) (command : string) : option Response :=
  let query := extract_youtube_query (LANGUAGES env) command in
  if negb (truthy_opt query) then None
  else if negb (REQUESTS_AVAILABLE env) then Some (plain status_error)
  else if truthy_opt (search_youtube_simple env (or_else query ""))
  then Some (with_action status_action play_youtube_embedded)
  else Some (with_action status_action play_youtube).

(** Lines 644-672. *)
Definition handle_web_action_command (question : string) : option Response :=
  if contains "order" question then
    let item := strip (replace "online" "" (replace "order" "" question)) in
    if contains "pizza" item then Some (with_action status_action open_url)
    else if contains "book" item then Some (with_action status_action open_url)
    else if truthy item then Some (with_action status_action open_url)
    else Some (plain status_info)
  else if contains "search" question then
    let query := strip (replace "web" "" (replace "search" "" question)) in
    if truthy query then Some (with_action status_action open_url)
    else Some (plain status_info)
  else None.

Definition TEXT_EXTRACTION_FILES : list string := [".txt"; ".pdf"; ".docx"; ".pptx"].
Definition MEDIA_FILES : list string := [".mp4"; ".mov"; ".avi"; ".mkv"; ".wmv"].

(** Lines 485-562. *)
Definition handle_open_file (env : Env) (file_name_raw command_text : string)
  (s : Session) : Response * Session :=
  let file_name := strip file_name_raw in
  if negb (path_exists env file_name) then (plain status_error, s)
  else
    let file_extension :=
      lower (OsPath.splitext_ext (OsPath.separators (os_name env)) file_name) in
    if mem file_extension MEDIA_FILES && contains "transcribe" command_text then
      let '((target_lang, source_lang), s1) :=
        extract_language_codes (LANGUAGES env) command_text s in
      let target_lang := or_else target_lang (translation_language s1) in
      let source_lang := or_else source_lang "en" in
      transcribe_video_audio env file_name target_lang source_lang s1
    else if mem file_extension MEDIA_FILES then
      if String.eqb (os_name env) "nt" || String.eqb (os_name env) "posix" then
        match open_media env file_name with
        | Ok _ => (plain status_info, s)
        | Raise _ => (plain status_error, s)
        end
      else (plain status_info, s)
    else if mem file_extension TEXT_EXTRACTION_FILES then
      match extract_file_content env file_name with
      | Ok content =>
          if truthy content
          then (with_action status_success start_read,
                mkSession content 0 (translation_language s))
          else (plain status_error, s)
      | Raise _ => (plain status_error, s)
      end
    else (plain status_error, s).

(** ** Command dispatcher *)

(** Lines 1434-1453: every branch of the small talk answers [info]. *)
Definition general_conversation (has_content0 : bool) : Response :=
  set_has_content has_content0 (plain status_info).

(** Line 1457: the response of the [except] clause of the dispatcher. *)
Definition server_error : Response :=
  set_has_content false (plain status_error).

(** Lines 1376-1394. *)
Definition youtube_transcription_branch (env : Env) (question : string)
  (has_content0 : bool) (s : Session) : Response * Session :=
  let query := extract_youtube_query (LANGUAGES env) question in
  let '((target_lang, source_lang), s1) :=
    extract_language_codes (LANGUAGES env) question s in
  let target_lang := or_else target_lang (translation_language s1) in
  let source_lang := or_else source_lang "en" in
  if negb (truthy_opt query) then
    (set_has_content has_content0 (plain status_error), s1)
  else
    match transcribe_youtube_audio_real env (or_else query "") target_lang
            source_lang s1 with
    | (Ok response, s2) =>
        (set_has_content (is_start_read response) response, s2)
    | (Raise _, s2) => (server_error, s2)
    end.

(** Lines 1403-1416. *)
Definition file_branch (env : Env) (file_name question : string)
  (has_content0 : bool) (s : Session) : Response * Session :=
  let '(_, s1) := extract_language_codes (LANGUAGES env) question s in
  let '(response, s2) := handle_open_file env file_name question s1 in
  let has_content1 :=
    if Status_eqb (status response) status_success then true else has_content0 in
  (set_has_content has_content1 response, s2).

(** Lines 1418-1424. *)
Definition translation_branch (env : Env) (question : string)
  (has_content0 : bool) (s : Session) : Response * Session :=
  let '(response, s1) := handle_translation_command env question s in
  let response :=
    if has_content0 && Status_eqb (status response) status_success
    then set_action start_read response else response in
  (set_has_content has_content0 response, s1).

(** Lines 1426-1431. *)
Definition control_branch (env : Env) (question : string)
  (has_content0 : bool) (s : Session) : Response * Session :=
  let question := if String.eqb question "continue" then "resume" else question in
  let '(response, s1) := handle_control_command env question s in
  (set_has_content has_content0 response, s1).

Definition is_youtube_playback (question : string) : bool :=
  (contains "play" question || contains "watch" question) &&
  contains "youtube" question &&
  negb (contains "transcribe" question) &&
  negb (contains "translate" question).

Definition is_youtube_transcription (question : string) : bool :=
  (contains "transcribe" question || contains "translate" question) &&
  contains "youtube" question.

Definition is_control (question : string) : bool :=
  mem question ["restart"; "resume"; "stop"; "pause"; "continue"] ||
  startswith "set reading speed to" question.

(** Lines 1397-1453: the branches below the two YouTube ones. *)
Definition dispatch_rest (env : Env) (question : string) (has_content0 : bool)
  (s : Session) : Response * Session :=
  match handle_web_action_command question with
  | Some web_response => (set_has_content has_content0 web_response, s)
  | None =>
      let file_name := extract_filename_from_command question in
      if truthy_opt file_name &&
         contains_any ["open"; "read"; "transcribe"; "play"] question
      then file_branch env (or_else file_name "") question has_content0 s
      else if contains "translate to" question
      then translation_branch env question has_content0 s
      else if is_control question
      then control_branch env question has_content0 s
      else (general_conversation has_content0, s)
  end.

(** Lines 1358-1453: the body of the [try] for a request whose [question]
    is the string [question0], with the [except] clause for the one
    exception that the handlers modelled above let out, that of
    [yt.title].  The requests without a string question and the other
    exceptions that reach the [except] clause are in [post_command]
    below. *)
Definition command_handler (env : Env) (question0 : string) (s : Session)
  : Response * Session :=
  let question := lower (strip question0) in
  let has_content0 := truthy (current_file_content s) in
  if mem question ["reset"; "forget"; "clear memory"; "forget all"]
  then handle_reset_command s
  else
    match (if is_youtube_playback question
           then handle_youtube_command env question else None) with
    | Some youtube_response =>
        (set_has_content has_content0 youtube_response, s)
    | None =>
        if is_youtube_transcription question
        then youtube_transcription_branch env question has_content0 s
        else dispatch_rest env question has_content0 s
    end.

(** Lines 1459-1463. *)
Definition read_chunk_handler (env : Env) (s : Session) : Response * Session :=
  get_next_chunk env 500 s.

(** ** Reading to the end *)

(** What the client does after [start_read]: it asks for chunks until the
    server answers [done].  The result lists, for each chunk, the cursor
    before the call, the cursor after it and the text delivered; [None]
    when [fuel] calls did not reach [done]. *)
Fixpoint read_until_done (env : Env) (chunk_size : Z) (fuel : nat) (s : Session)
  : option (list (Z * Z * string) * Session) :=
  match fuel with
  | O => None
  | S fuel' =>
      let '(response, s') := get_next_chunk env chunk_size s in
      match status response with
      | status_done => Some ([], s')
      | _ =>
          match read_until_done env chunk_size fuel' s' with
          | Some (chunks, s'') =>
              Some ((read_position s, read_position s',
                     match chunk response with Some c => c | None => "" end)
                    :: chunks, s'')
          | None => None
          end
      end
  end.

(** The ranges [a, b) tile [from, L): each starts where the one before
    ends, is not empty, and ends [chunk_size] further or at [L]. *)
Fixpoint tiles (chunk_size from L : Z) (ranges : list (Z * Z)) : Prop :=
  match ranges with
  | [] => from = L
  | (a, b) :: r =>
      a = from /\ a < b /\ b = Z.min (a + chunk_size) L /\ tiles chunk_size b L r
  end.

(** The session invariant of the specification. *)
Definition session_inv (s : Session) : Prop :=
  0 <= read_position s <= len (current_file_content s) /\
  (current_file_content s = "" -> read_position s = 0).

(** ** Concrete environments *)

(** The table [LANGUAGES] of googletrans (googletrans/constants.py), which
    app3.py imports; it is not part of the repository.  The general
    results below hold for every table; this one is the table the server
    runs with, and the examples are evaluated on it. *)
Definition googletrans_LANGUAGES : list (string * string) :=
  [("af", "afrikaans"); ("sq", "albanian"); ("am", "amharic");
   ("ar", "arabic"); ("hy", "armenian"); ("az", "azerbaijani");
   ("eu", "basque"); ("be", "belarusian"); ("bn", "bengali");
   ("bs", "bosnian"); ("bg", "bulgarian"); ("ca", "catalan");
   ("ceb", "cebuano"); ("ny", "chichewa");
   ("zh-cn", "chinese (simplified)"); ("zh-tw", "chinese (traditional)");
   ("co", "corsican"); ("hr", "croatian"); ("cs", "czech");
   ("da", "danish"); ("nl", "dutch"); ("en", "english");
   ("eo", "esperanto"); ("et", "estonian"); ("tl", "filipino");
   ("fi", "finnish"); ("fr", "french"); ("fy", "frisian");
   ("gl", "galician"); ("ka", "georgian"); ("de", "german");
   ("el", "greek"); ("gu", "gujarati"); ("ht", "haitian creole");
   ("ha", "hausa"); ("haw", "hawaiian"); ("iw", "hebrew");
   ("he", "hebrew"); ("hi", "hindi"); ("hmn", "hmong");
   ("hu", "hungarian"); ("is", "icelandic"); ("ig", "igbo");
   ("id", "indonesian"); ("ga", "irish"); ("it", "italian");
   ("ja", "japanese"); ("jw", "javanese"); ("kn", "kannada");
   ("kk", "kazakh"); ("km", "khmer"); ("ko", "korean");
   ("ku", "kurdish (kurmanji)"); ("ky", "kyrgyz"); ("lo", "lao");
   ("la", "latin"); ("lv", "latvian"); ("lt", "lithuanian");
   ("lb", "luxembourgish"); ("mk", "macedonian"); ("mg", "malagasy");
   ("ms", "malay"); ("ml", "malayalam"); ("mt", "maltese");
   ("mi", "maori"); ("mr", "marathi"); ("mn", "mongolian");
   ("my", "myanmar (burmese)"); ("ne", "nepali"); ("no", "norwegian");
   ("or", "odia"); ("ps", "pashto"); ("fa", "persian"); ("pl", "polish");
   ("pt", "portuguese"); ("pa", "punjabi"); ("ro", "romanian");
   ("ru", "russian"); ("sm", "samoan"); ("gd", "scots gaelic");
   ("sr", "serbian"); ("st", "sesotho"); ("sn", "shona");
   ("sd", "sindhi"); ("si", "sinhala"); ("sk", "slovak");
   ("sl", "slovenian"); ("so", "somali"); ("es", "spanish");
   ("su", "sundanese"); ("sw", "swahili"); ("sv", "swedish");
   ("tg", "tajik"); ("ta", "tamil"); ("te", "telugu"); ("th", "thai");
   ("tr", "turkish"); ("uk", "ukrainian"); ("ur", "urdu");
   ("ug", "uyghur"); ("uz", "uzbek"); ("vi", "vietnamese");
   ("cy", "welsh"); ("xh", "xhosa"); ("yi", "yiddish");
   ("yo", "yoruba"); ("zu", "zulu")].

(** A server with no network: the optional libraries are installed, every
    call that leaves the machine raises, no file exists. *)
Definition offline_env : Env :=
  {| LANGUAGES := googletrans_LANGUAGES;
     MOVIEPY_AVAILABLE := true;
     PYTUBE_AVAILABLE := true;
     REQUESTS_AVAILABLE := true;
     translator_translate := fun _ _ => Raise OtherException;
     translator_detect := fun _ => Raise OtherException;
     recognize_google := fun _ _ => Raise RequestError;
     extract_audio := fun _ => Raise OtherException;
     youtube_search := fun _ => None;
     yt_audio_stream := fun _ => Raise OtherException;
     yt_download := fun _ => Raise OtherException;
     yt_title := fun _ => Raise OtherException;
     path_exists := fun _ => false;
     extract_file_content := fun _ => Raise OtherException;
     os_name := "posix";
     open_media := fun _ => Raise OtherException;
     float_parses := fun _ => false |}.

(** A server on which the remote pipeline runs to its last line: the video
    is found, its audio is downloaded and recognised as English text in
    English, and only reading the title of the video fails. *)
Definition title_fails_env : Env :=
  {| LANGUAGES := googletrans_LANGUAGES;
     MOVIEPY_AVAILABLE := true;
     PYTUBE_AVAILABLE := true;
     REQUESTS_AVAILABLE := true;
     translator_translate := fun text _ => Ok text;
     translator_detect := fun _ => Ok "en";
     recognize_google := fun _ _ => Ok "good morning";
     extract_audio := fun _ => Ok tt;
     youtube_search := fun _ => Some "dQw4w9WgXcQ";
     yt_audio_stream := fun _ => Ok true;
     yt_download := fun _ => Ok true;
     yt_title := fun _ => Raise OtherException;
     path_exists := fun _ => false;
     extract_file_content := fun _ => Raise OtherException;
     os_name := "posix";
     open_media := fun _ => Ok tt;
     float_parses := fun _ => false |}.

(** A session in the middle of a document. *)
Definition reading_session : Session := mkSession "hello world" 4 "es".
(** The range of a chunk read by [read_until_done]. *)
Definition range_of (c : Z * Z * string) : Z * Z := (fst (fst c), snd (fst c)).

Definition concat_strings (l : list string) : string :=
  fold_right String.append "" l.

(** The command of the specification for the parser. *)
Definition translate_video_command : string :=
  "translate to spanish from french my_video.mp4".

(** ** Requests *)

(** The two routes that touch the session, each served in the environment
    of its moment. *)
Inductive Request : Type :=
  | PostCommand (question : string)
  | GetReadChunk.

Definition serve (env : Env) (r : Request) (s : Session) : Response * Session :=
  match r with
  | PostCommand question => command_handler env question s
  | GetReadChunk => read_chunk_handler env s
  end.

Fixpoint serve_all (rs : list (Env * Request)) (s : Session) : Session :=
  match rs with
  | [] => s
  | (env, r) :: rest => serve_all rest (snd (serve env r s))
  end.

(** ** The parts of the language-pair extraction *)

(** Lines 107-116: the target named after [translate to], if any. *)
Definition explicit_target (table : list (string * string)) (command0 : string)
  : option string :=
  let clean_command := clean_command_of SUPPORTED_EXTENSIONS (lower command0) in
  if contains "translate to" clean_command then
    get_language_code table
      (join " " (target_name_parts
                   (words (strip (after_first "translate to" clean_command)))))
  else None.

(** Line 130: the condition under which the target of the session is
    taken. *)
Definition defaults_to_session_target (table : list (string * string))
  (command0 : string) : bool :=
  is_none (explicit_target table command0) &&
  (contains "transcribe" (lower command0) || contains "translate" (lower command0)).

(** No entry that stands before the entry of [code] bears the name [name],
    letter case apart: [code] is the first bearer of its name. *)
Fixpoint no_earlier_bearer (table : list (string * string)) (code name : string)
  : bool :=
  match table with
  | [] => true
  | (c, n) :: r =>
      if String.eqb c code then true
      else negb (String.eqb (lower n) (lower name)) &&
           no_earlier_bearer r code name
  end.

(** No code but [code] bears the name [name], letter case apart. *)
Definition sole_bearer (table : list (string * string)) (code name : string) : bool :=
  forallb (fun entry =>
             implb (String.eqb (lower (snd entry)) (lower name))
                   (String.eqb (fst entry) code)) table.

(** A server whose storage holds one document. *)
Definition notes_env : Env :=
  {| LANGUAGES := googletrans_LANGUAGES;
     MOVIEPY_AVAILABLE := false;
     PYTUBE_AVAILABLE := false;
     REQUESTS_AVAILABLE := false;
     translator_translate := fun _ _ => Raise OtherException;
     translator_detect := fun _ => Raise OtherException;
     recognize_google := fun _ _ => Raise RequestError;
     extract_audio := fun _ => Raise OtherException;
     youtube_search := fun _ => None;
     yt_audio_stream := fun _ => Raise OtherException;
     yt_download := fun _ => Raise OtherException;
     yt_title := fun _ => Raise OtherException;
     path_exists := fun name => String.eqb name "notes.txt";
     extract_file_content := fun _ => Ok "first line, second line";
     os_name := "posix";
     open_media := fun _ => Raise OtherException;
     float_parses := fun _ => false |}.

(** A server on which a Spanish video is transcribed and translated. *)
Definition studio_env : Env :=
  {| LANGUAGES := googletrans_LANGUAGES;
     MOVIEPY_AVAILABLE := true;
     PYTUBE_AVAILABLE := true;
     REQUESTS_AVAILABLE := true;
     translator_translate := fun _ _ => Ok "good morning";
     translator_detect := fun _ => Ok "es";
     recognize_google := fun _ _ => Ok "buenos dias";
     extract_audio := fun _ => Ok tt;
     youtube_search := fun _ => Some "dQw4w9WgXcQ";
     yt_audio_stream := fun _ => Ok true;
     yt_download := fun _ => Ok true;
     yt_title := fun _ => Ok "clip";
     path_exists := fun _ => true;
     extract_file_content := fun _ => Ok "text";
     os_name := "posix";
     open_media := fun _ => Ok tt;
     float_parses := fun _ => true |}.

(** ** Occurrences *)

(** [a] occurs in [s]. *)
Definition substr (a s : string) : Prop := exists l r, s = l ++ a ++ r.

(** [c in s] for a character. *)
Fixpoint has_char (c : ascii) (s : string) : bool :=
  match s with
  | EmptyString => false
  | String a r => Ascii.eqb a c || has_char c r
  end.

Fixpoint all_space (s : string) : bool :=
  match s with
  | EmptyString => true
  | String a r => is_space a && all_space r
  end.

(** A word as [split()] produces them: not empty, without white space. *)
Definition is_word (w : string) : Prop :=
  w <> "" /\ forall c, has_char c w = true -> is_space c = false.

(** ** The desktop assistant (lines 1473-1870) *)

Module Desktop.

(** [l.index(x)] where [x in l] holds. *)
Fixpoint index (x : string) (l : list string) : nat :=
  match l with
  | [] => O
  | y :: r => if String.eqb y x then O else S (index x r)
  end.

Definition file_keywords : list string :=
  ["open"; "read"; "file"; "document"; "docx"; "pdf"; "pptx"; "txt"].

(** Lines 1583-1592: the words after the first occurrence of a keyword,
    the keywords tried in the order of the list. *)
Fixpoint keyword_loop (keywords : list string) (words : list string)
  : option string :=
  match keywords with
  | [] => None
  | keyword :: r =>
      if mem keyword words then
        let filename := join " " (skipn (S (index keyword words)) words) in
        if contains "." filename && (3 <? len filename) then Some filename
        else keyword_loop r words
      else keyword_loop r words
  end.

(** Lines 1579-1598. *)
Definition extract_filename_from_command (command : string) : option string :=
  match keyword_loop file_keywords (words (lower command)) with
  | Some filename => Some filename
  | None =>
      let stripped_command :=
        strip (replace "read" "" (replace "open" "" (lower command))) in
      if contains "." stripped_command then Some stripped_command else None
  end.

End Desktop.

(** ** The route [/command] in full (lines 1351-1457) *)

(** The body of a request as lines 1359-1360 read it, with
    [request.json] and [data.get('question', '')]. *)
Inductive RequestBody : Type :=
  | NoObject          (* no JSON, or JSON that is not an object: a call raises *)
  | NoQuestion        (* an object without the key: the default '' is taken *)
  | StringQuestion (question : string)
  | OtherQuestion.    (* null, a number, a list, an object: .strip() raises *)

Definition body_question (body : RequestBody) : option string :=
  match body with
  | NoQuestion => Some ""
  | StringQuestion question => Some question
  | NoObject | OtherQuestion => None
  end.

(** The calls of the handlers that stand outside their [try] blocks and
    can raise: the exception leaves the handler and reaches the [except]
    clause of the dispatcher.  All of them come before the assignments to
    the session. *)
Record Faults : Type := mkFaults {
  listdir_raises : bool;    (* os.listdir, os.path.isfile: lines 494-497 *)
  tempfile_raises : bool;   (* tempfile.NamedTemporaryFile: line 225 *)
  gettempdir_raises : bool; (* tempfile.gettempdir: line 312 *)
  remove_raises : bool      (* os.remove in a finally: lines 274, 368 *)
}.

Definition no_faults : Faults := mkFaults false false false false.

(** Lines 220-274: an exception leaves [transcribe_video_audio].  The
    temporary file is made once moviepy is found, and removed in the
    [finally] on every path. *)
Definition transcribe_video_audio_raises (env : Env) (faults : Faults) : bool :=
  MOVIEPY_AVAILABLE env && (tempfile_raises faults || remove_raises faults).

(** Lines 489-522: an exception leaves [handle_open_file]: from the
    listing of the folder when the file does not exist, or from the
    transcription of a media file. *)
Definition handle_open_file_raises (env : Env) (faults : Faults)
  (file_name_raw command_text : string) : bool :=
  let file_name := strip file_name_raw in
  if negb (path_exists env file_name) then listdir_raises faults
  else
    let file_extension :=
      lower (OsPath.splitext_ext (OsPath.separators (os_name env)) file_name) in
    if mem file_extension MEDIA_FILES && contains "transcribe" command_text
    then transcribe_video_audio_raises env faults
    else false.

(** Lines 300-368: an exception leaves [transcribe_youtube_audio_real]
    before the assignments: from [gettempdir] once a video is found, or
    from the removal of the downloaded file in the [finally]. *)
Definition transcribe_youtube_audio_real_raises (env : Env) (faults : Faults)
  (query : string) : bool :=
  PYTUBE_AVAILABLE env && REQUESTS_AVAILABLE env &&
  match search_youtube_simple env query with
  | Some video_id =>
      truthy video_id &&
      (gettempdir_raises faults ||
       match yt_audio_stream env video_id, yt_download env video_id with
       | Ok true, Ok true => remove_raises faults
       | _, _ => false
       end)
  | None => false
  end.

(** Lines 1358-1457 for a string question: the dispatcher with every way
    into its [except] clause. *)
Definition post_command_question (env : Env) (faults : Faults)
  (question0 : string) (s : Session) : Response * Session :=
  let question := lower (strip question0) in
  let has_content0 := truthy (current_file_content s) in
  if mem question ["reset"; "forget"; "clear memory"; "forget all"]
  then handle_reset_command s
  else
    match (if is_youtube_playback question
           then handle_youtube_command env question else None) with
    | Some youtube_response =>
        (set_has_content has_content0 youtube_response, s)
    | None =>
        if is_youtube_transcription question then
          let query := extract_youtube_query (LANGUAGES env) question in
          if truthy_opt query &&
             transcribe_youtube_audio_real_raises env faults (or_else query "")
          then (server_error, s)
          else youtube_transcription_branch env question has_content0 s
        else
          match handle_web_action_command question with
          | Some web_response => (set_has_content has_content0 web_response, s)
          | None =>
              let file_name := extract_filename_from_command question in
              if truthy_opt file_name &&
                 contains_any ["open"; "read"; "transcribe"; "play"] question
              then
                if handle_open_file_raises env faults (or_else file_name "")
                     question
                then (server_error, s)
                else file_branch env (or_else file_name "") question
                       has_content0 s
              else if contains "translate to" question
              then translation_branch env question has_content0 s
              else if is_control question
              then control_branch env question has_content0 s
              else (general_conversation has_content0, s)
          end
    end.

(** Lines 1351-1457. *)
Definition post_command (env : Env) (faults : Faults) (body : RequestBody)
  (s : Session) : Response * Session :=
  match body_question body with
  | Some question0 => post_command_question env faults question0 s
  | None => (server_error, s)
  end.

(** * Properties *)

(** ** The string primitives on small inputs *)

Example slice_ex1 : slice "abcdef" 1 4 = "bcd". Proof. reflexivity. Qed.
Example slice_ex2 : slice "abcdef" (-2) 100 = "ef". Proof. reflexivity. Qed.
Example slice_ex3 : slice "abcdef" 4 2 = "". Proof. reflexivity. Qed.
Example split_ex1 : split "to" "a to b to c" = ["a "; " b "; " c"]. Proof. reflexivity. Qed.
Example split_ex2 : split1 "to" "a to b to c" = ["a "; " b to c"]. Proof. reflexivity. Qed.
Example replace_ex1 : replace " dot " "." "city dot mp4" = "city.mp4". Proof. reflexivity. Qed.
Example replace_ex2 : replace "aa" "b" "aaaaa" = "bba". Proof. reflexivity. Qed.
Example strip_ex1 : strip "  a b  " = "a b". Proof. reflexivity. Qed.
Example words_ex1 : words "  a  bc d " = ["a"; "bc"; "d"]. Proof. reflexivity. Qed.
Example lower_ex1 : lower "Play My_Video.MP4" = "play my_video.mp4". Proof. reflexivity. Qed.
Example endswith_ex1 : endswith "youtube" "x on youtube" = true. Proof. reflexivity. Qed.
Example splitext_ex1 : OsPath.splitext_ext ["/"%char] "my.video.MP4" = ".MP4". Proof. reflexivity. Qed.
Example splitext_ex2 : OsPath.splitext_ext ["/"%char] ".bashrc" = "". Proof. reflexivity. Qed.
Example splitext_ex3 : OsPath.splitext_ext ["/"%char] "a.b/c" = "". Proof. reflexivity. Qed.

(** ** The parser and the dispatcher on the commands of the specification *)

Example filename_city :
  extract_filename_from_command "transcribe city dot mp4" = Some "city.mp4".
Proof. reflexivity. Qed.

Example filename_open :
  extract_filename_from_command "open my_video.mp4" = Some "my_video.mp4".
Proof. reflexivity. Qed.

Example youtube_query_ex :
  extract_youtube_query googletrans_LANGUAGES "Transcribe lecture on YouTube"
  = Some "lecture".
Proof. vm_compute. reflexivity. Qed.

Example resume_on_empty_session :
  fst (command_handler offline_env "resume" initial_session)
  = mkResponse status_info None None (Some false).
Proof. vm_compute. reflexivity. Qed.

Example order_pizza (s : Session) :
  fst (command_handler offline_env "order pizza" s)
  = mkResponse status_action (Some open_url) None
      (Some (truthy (current_file_content s))).
Proof. reflexivity. Qed.

Example read_hello_world :
  read_until_done offline_env 4 20 (mkSession "hello world" 0 "en")
  = Some ([(0, 4, "hell"); (4, 8, "o wo"); (8, 11, "rld")],
          mkSession "hello world" 11 "en").
Proof. vm_compute. reflexivity. Qed.

(** ** Lemmas on strings *)

Lemma len_nonneg (s : string) : 0 <= len s.
Proof. unfold len. lia. Qed.

Lemma truthy_false_iff (s : string) : truthy s = false <-> s = "".
Proof. destruct s; simpl; split; congruence. Qed.

Lemma truthy_true_iff (s : string) : truthy s = true <-> s <> "".
Proof. destruct s; simpl; split; congruence. Qed.

Lemma len_zero_iff (s : string) : len s = 0 <-> s = "".
Proof.
  unfold len. destruct s; simpl; split; intro H; try reflexivity; discriminate.
Qed.

Lemma take_drop (n : nat) (s : string) : take n s ++ drop n s = s.
Proof.
  revert s. induction n as [|n IH]; intros [|c r]; simpl; try reflexivity.
  now rewrite IH.
Qed.

Lemma drop_drop (n m : nat) (s : string) : drop m (drop n s) = drop (n + m) s.
Proof.
  revert s. induction n as [|n IH]; intros s; simpl.
  - reflexivity.
  - destruct s as [|c r].
    + now destruct m.
    + apply IH.
Qed.

Lemma drop_all (n : nat) (s : string) :
  (String.length s <= n)%nat -> drop n s = "".
Proof.
  revert s. induction n as [|n IH]; intros [|c r] H; simpl in *;
    try reflexivity; try lia.
  apply IH. lia.
Qed.

Lemma length_take (n : nat) (s : string) :
  String.length (take n s) = Nat.min n (String.length s).
Proof.
  revert s. induction n as [|n IH]; intros [|c r]; simpl; try reflexivity.
  now rewrite IH.
Qed.

Lemma length_drop (n : nat) (s : string) :
  String.length (drop n s) = (String.length s - n)%nat.
Proof.
  revert s. induction n as [|n IH]; intros [|c r]; simpl; try reflexivity.
  apply IH.
Qed.

(** Inside the text a slice is what its bounds say. *)
Lemma slice_inside (s : string) (a b : Z) :
  0 <= a -> a < b -> b <= len s ->
  slice s a b = take (Z.to_nat (b - a)) (drop (Z.to_nat a) s).
Proof.
  intros Ha Hab Hb. unfold slice, clamp.
  destruct (a <? 0) eqn:E1; [apply Z.ltb_lt in E1; lia|].
  destruct (b <? 0) eqn:E2; [apply Z.ltb_lt in E2; lia|].
  rewrite (Z.min_l a), (Z.min_l b) by lia.
  destruct (a <? b) eqn:E3; [reflexivity|].
  apply Z.ltb_ge in E3. lia.
Qed.

Lemma len_slice_inside (s : string) (a b : Z) :
  0 <= a -> a < b -> b <= len s -> len (slice s a b) = b - a.
Proof.
  intros Ha Hab Hb. rewrite slice_inside by assumption.
  unfold len in *. rewrite length_take, length_drop. lia.
Qed.

(** ** C1: reading chunk by chunk *)

Lemma tiles_bounds (size from L : Z) (ranges : list (Z * Z)) :
  0 < size -> from <= L -> tiles size from L ranges ->
  Forall (fun r => from <= fst r /\ fst r < snd r /\ snd r <= L /\
                   snd r - fst r <= size) ranges.
Proof.
  intros Hsize. revert from. induction ranges as [|[a b] r IH]; intros from Hle Ht.
  - constructor.
  - simpl in Ht. destruct Ht as (-> & Hab & Hb & Ht).
    constructor.
    + simpl. lia.
    + assert (Hb' : b <= L) by lia.
      specialize (IH b Hb' Ht).
      eapply Forall_impl; [|exact IH]. simpl. intros [x y]. simpl. lia.
Qed.

(** All the ranges but the last have exactly [size] characters. *)
Lemma tiles_full (size from L : Z) (ranges : list (Z * Z)) (a b : Z) (rest : list (Z * Z)) :
  tiles size from L ranges ->
  forall pre, ranges = (pre ++ (a, b) :: rest)%list -> rest <> [] -> b - a = size.
Proof.
  revert from. induction ranges as [|[x y] r IH]; intros from Ht pre Heq Hrest.
  - destruct pre; discriminate.
  - simpl in Ht. destruct Ht as (-> & Hxy & Hy & Ht).
    destruct pre as [|p pre].
    + simpl in Heq. injection Heq as -> -> ->.
      destruct rest as [|[c d] rest]; [congruence|].
      simpl in Ht. destruct Ht as (-> & Hcd & Hd & _). lia.
    + simpl in Heq. injection Heq as _ ->. eapply IH; eauto.
Qed.

(** The slices of a tiling, put end to end, give the text back. *)
Lemma tiles_concat (content : string) (size from : Z) (ranges : list (Z * Z)) :
  0 <= from <= len content ->
  tiles size from (len content) ranges ->
  concat_strings (map (fun r => slice content (fst r) (snd r)) ranges)
  = drop (Z.to_nat from) content.
Proof.
  revert from. induction ranges as [|[a b] r IH]; intros from Hfrom Ht; simpl in *.
  - subst from. symmetry. apply drop_all. unfold len. lia.
  - destruct Ht as (-> & Hab & Hb & Ht).
    assert (Hb' : b <= len content) by lia.
    rewrite (IH b) by (auto; lia).
    rewrite slice_inside by lia.
    replace (Z.to_nat b) with (Z.to_nat from + Z.to_nat (b - from))%nat by lia.
    rewrite <- drop_drop. apply take_drop.
Qed.

(** From any cursor inside the text, enough calls reach [done], and the
    chunks read on the way tile the rest of the text. *)
Lemma read_until_done_from (env : Env) (size : Z) (fuel : nat) (s : Session) :
  0 < size ->
  current_file_content s <> "" ->
  0 <= read_position s <= len (current_file_content s) ->
  (Z.to_nat (len (current_file_content s) - read_position s) < fuel)%nat ->
  exists chunks,
    read_until_done env size fuel s
    = Some (chunks, set_read_position (len (current_file_content s)) s) /\
    tiles size (read_position s) (len (current_file_content s))
          (map range_of chunks) /\
    Forall (fun c => snd c = translated_chunk env (translation_language s)
                               (slice (current_file_content s)
                                      (fst (range_of c)) (snd (range_of c))))
           chunks.
Proof.
  intros Hsize. revert s. induction fuel as [|fuel IH]; intros s Hne Hpos Hfuel.
  - lia.
  - apply truthy_true_iff in Hne as Htr.
    simpl. unfold get_next_chunk. rewrite Htr. simpl.
    destruct (len (current_file_content s) <=? read_position s) eqn:E.
    + apply Z.leb_le in E. exists []. simpl. repeat split; [lia | constructor].
    + apply Z.leb_gt in E. simpl.
      set (e := Z.min (read_position s + size) (len (current_file_content s))).
      assert (He : read_position s < e <= len (current_file_content s))
        by (unfold e; lia).
      destruct (IH (set_read_position e s)) as (chunks & Hrun & Htiles & Hall);
        simpl; try assumption; try lia.
      rewrite Hrun. simpl in *.
      eexists. split; [reflexivity|]. simpl. split.
      * repeat split; try lia. exact Htiles.
      * constructor; [reflexivity | exact Hall].
Qed.

Lemma get_next_chunk_at_end (env : Env) (size : Z) (s : Session) :
  current_file_content s <> "" ->
  len (current_file_content s) <= read_position s ->
  get_next_chunk env size s
  = (mkResponse status_done None (Some "") None,
     set_read_position (len (current_file_content s)) s).
Proof.
  intros Hne Hend. apply truthy_true_iff in Hne.
  unfold get_next_chunk. rewrite Hne. simpl.
  apply Z.leb_le in Hend. now rewrite Hend.
Qed.

Lemma get_next_chunk_inside (env : Env) (size : Z) (s : Session) :
  current_file_content s <> "" ->
  read_position s < len (current_file_content s) ->
  get_next_chunk env size s
  = let chunk_end :=
      Z.min (read_position s + size) (len (current_file_content s)) in
    (mkResponse status_reading None
       (Some (translated_chunk env (translation_language s)
                (slice (current_file_content s) (read_position s) chunk_end)))
       None,
     set_read_position chunk_end s).
Proof.
  intros Hne Hin. apply truthy_true_iff in Hne.
  unfold get_next_chunk. rewrite Hne. simpl.
  apply Z.leb_gt in Hin. now rewrite Hin.
Qed.

(** C1.  For a chunk size [size > 0] and a session with a non-empty
    content of length [L] and the cursor at 0, calling [get_next_chunk]
    until it answers [done] takes at most [L + 1] calls; the ranges
    [(cursor before, cursor after)] of the chunks read tile [0, L): each
    starts where the one before ends, each ends at
    [min (start + size) L], so each has at most [size] characters and all
    but the last exactly [size]; the text of a chunk is the slice of its
    range (translated when the target is not English), and the slices put
    end to end are the content.  The cursor stops at [L], and any call made
    with the cursor at or beyond [L] answers [done]. *)
Theorem get_next_chunk_partitions_content (env : Env) (size : Z) (s : Session) :
  0 < size ->
  current_file_content s <> "" ->
  read_position s = 0 ->
  let content := current_file_content s in
  let L := len content in
  exists chunks,
    read_until_done env size (S (Z.to_nat L)) s
    = Some (chunks, set_read_position L s) /\
    tiles size 0 L (map range_of chunks) /\
    Forall (fun c =>
              let '(a, b) := range_of c in
              0 <= a /\ a < b /\ b <= L /\ b - a <= size /\
              snd c = translated_chunk env (translation_language s)
                        (slice content a b)) chunks /\
    (forall pre c rest,
        chunks = (pre ++ c :: rest)%list -> rest <> [] ->
        snd (range_of c) - fst (range_of c) = size) /\
    concat_strings
      (map (fun c => slice content (fst (range_of c)) (snd (range_of c))) chunks)
    = content /\
    (forall t, current_file_content t <> "" ->
               len (current_file_content t) <= read_position t ->
               status (fst (get_next_chunk env size t)) = status_done) /\
    (forall t, current_file_content t <> "" ->
               read_position t < len (current_file_content t) ->
               status (fst (get_next_chunk env size t)) = status_reading /\
               read_position (snd (get_next_chunk env size t))
               = Z.min (read_position t + size) (len (current_file_content t))).
Proof.
  intros Hsize Hne Hpos content L.
  pose proof (len_nonneg content) as HL.
  destruct (read_until_done_from env size (S (Z.to_nat L)) s) as
    (chunks & Hrun & Htiles & Htext); try assumption.
  { rewrite Hpos. fold content. lia. }
  { rewrite Hpos. fold content L. lia. }
  rewrite Hpos in Htiles. fold content L in Hrun, Htiles, Htext.
  exists chunks. split; [exact Hrun|]. split; [exact Htiles|].
  split; [|split; [|split; [|split]]].
  - pose proof (tiles_bounds size 0 L (map range_of chunks) Hsize HL Htiles) as Hb.
    rewrite Forall_map in Hb.
    rewrite Forall_forall in *. intros c Hc.
    specialize (Hb c Hc). specialize (Htext c Hc).
    destruct (range_of c) as [a b] eqn:E. simpl in *.
    repeat split; try lia. exact Htext.
  - intros pre [[a b] t] rest Heq Hrest. simpl.
    eapply (tiles_full size 0 L (map range_of chunks) a b (map range_of rest)
              Htiles (map range_of pre)).
    + rewrite Heq, map_app. reflexivity.
    + destruct rest; [congruence | discriminate].
  - rewrite <- (map_map range_of (fun r => slice content (fst r) (snd r))).
    rewrite (tiles_concat content size 0) by (auto; lia).
    reflexivity.
  - intros t Hne' Hend. now rewrite get_next_chunk_at_end.
  - intros t Hne' Hin. rewrite get_next_chunk_inside by assumption.
    simpl. split; reflexivity.
Qed.

Lemma get_next_chunk_partitions_content_witness :
  exists chunks,
    read_until_done offline_env 4 12 (mkSession "hello world" 0 "en")
    = Some (chunks, mkSession "hello world" 11 "en") /\
    map range_of chunks = [(0, 4); (4, 8); (8, 11)].
Proof.
  destruct (get_next_chunk_partitions_content offline_env 4
              (mkSession "hello world" 0 "en")) as (chunks & Hrun & _);
    [lia | discriminate | reflexivity |].
  exists chunks. split; [exact Hrun|].
  vm_compute in Hrun. injection Hrun as <-. reflexivity.
Defined.

(** ** C2: the session invariant *)

Lemma session_inv_cursor_zero (content target : string) :
  session_inv (mkSession content 0 target).
Proof.
  unfold session_inv. simpl. pose proof (len_nonneg content). split; [lia | auto].
Qed.

Lemma session_inv_set_language (l : string) (s : Session) :
  session_inv s -> session_inv (set_translation_language l s).
Proof. intros H. exact H. Qed.

Lemma session_inv_reset (s : Session) :
  session_inv (snd (handle_reset_command s)).
Proof. apply session_inv_cursor_zero. Qed.

Lemma session_inv_get_next_chunk (env : Env) (size : Z) (s : Session) :
  0 <= size -> session_inv s -> session_inv (snd (get_next_chunk env size s)).
Proof.
  intros Hsize [Hpos Hempty]. unfold get_next_chunk.
  destruct (truthy (current_file_content s)) eqn:Ht; simpl.
  - apply truthy_true_iff in Ht.
    destruct (len (current_file_content s) <=? read_position s) eqn:E; simpl.
    + unfold session_inv. simpl. split; [lia | contradiction].
    + apply Z.leb_gt in E. unfold session_inv. simpl. split; [lia | contradiction].
  - split; assumption.
Qed.

Lemma session_inv_translation (env : Env) (command : string) (s : Session) :
  session_inv s -> session_inv (snd (handle_translation_command env command s)).
Proof.
  intros H. unfold handle_translation_command.
  destruct (Nat.ltb _ _); [|exact H].
  destruct (get_language_code _ _) as [c|]; [|exact H].
  destruct (truthy c); exact H.
Qed.

Lemma session_inv_control (env : Env) (command : string) (s : Session) :
  session_inv s -> session_inv (snd (handle_control_command env command s)).
Proof.
  intros H. unfold handle_control_command.
  repeat match goal with
         | |- context [if ?b then _ else _] => destruct b; simpl
         end; try exact H; apply session_inv_cursor_zero.
Qed.

Lemma extract_language_codes_session (table : list (string * string))
  (command : string) (s : Session) :
  snd (extract_language_codes table command s) = s.
Proof. reflexivity. Qed.

(** The local pipeline either leaves the session as it was or loads a
    text that is not empty. *)
Lemma transcribe_video_audio_cases (env : Env) (file_name target source : string)
  (s : Session) :
  let r := transcribe_video_audio env file_name target source s in
  (status (fst r) = status_error /\ snd r = s) \/
  (exists text, text <> "" /\ fst r = with_action status_success start_read /\
                snd r = load text target s).
Proof.
  unfold transcribe_video_audio.
  destruct (MOVIEPY_AVAILABLE env); simpl; [|left; split; reflexivity].
  destruct (video_try_block env file_name target source) as [text|e];
    [|left; split; reflexivity].
  destruct (truthy text) eqn:Ht; simpl; [|left; split; reflexivity].
  right. exists text. apply truthy_true_iff in Ht. repeat split; assumption.
Qed.

(** The remote pipeline either leaves the session as it was, answering
    with an error, or loads the text it obtained. *)
Lemma transcribe_youtube_audio_real_cases (env : Env) (query target source : string)
  (s : Session) :
  let r := transcribe_youtube_audio_real env query target source s in
  (fst r = Ok (plain status_error) /\ snd r = s) \/
  (exists text, snd r = load text target s /\
                (fst r = Ok (with_action status_success start_read) \/
                 exists e, fst r = Raise e)).
Proof.
  unfold transcribe_youtube_audio_real.
  destruct (PYTUBE_AVAILABLE env); simpl; [|left; split; reflexivity].
  destruct (REQUESTS_AVAILABLE env); simpl; [|left; split; reflexivity].
  destruct (truthy_opt (search_youtube_simple env query)); simpl;
    [|left; split; reflexivity].
  destruct (youtube_try_block _ _ _ _) as [[text|]|e];
    try (left; split; reflexivity).
  right. exists text.
  destruct (yt_title env _) as [t|e]; simpl; split; auto.
  right. now exists e.
Qed.

Lemma session_inv_transcribe_video (env : Env) (file_name target source : string)
  (s : Session) :
  session_inv s ->
  session_inv (snd (transcribe_video_audio env file_name target source s)).
Proof.
  intros H.
  destruct (transcribe_video_audio_cases env file_name target source s)
    as [[_ ->]|(text & _ & _ & ->)]; [exact H | apply session_inv_cursor_zero].
Qed.

Lemma session_inv_transcribe_youtube (env : Env) (query target source : string)
  (s : Session) :
  session_inv s ->
  session_inv (snd (transcribe_youtube_audio_real env query target source s)).
Proof.
  intros H.
  destruct (transcribe_youtube_audio_real_cases env query target source s)
    as [[_ ->]|(text & -> & _)]; [exact H | apply session_inv_cursor_zero].
Qed.

(** The condition of the conditional at the head of the goal. *)
Ltac head_if :=
  match goal with
  | |- ?P (snd (if ?b then _ else _)) => destruct b eqn:?
  end.

Lemma session_inv_open_file (env : Env) (file_name command : string) (s : Session) :
  session_inv s ->
  session_inv (snd (handle_open_file env file_name command s)).
Proof.
  intros H. unfold handle_open_file.
  head_if; [exact H|].
  head_if; [simpl; now apply session_inv_transcribe_video|].
  head_if.
  - head_if; [destruct (open_media env _)|]; exact H.
  - head_if; [|exact H].
    destruct (extract_file_content env _) as [content|e]; [|exact H].
    destruct (truthy content); [apply session_inv_cursor_zero | exact H].
Qed.

Lemma session_inv_command_handler (env : Env) (question : string) (s : Session) :
  session_inv s -> session_inv (snd (command_handler env question s)).
Proof.
  intros H. unfold command_handler.
  head_if; [apply session_inv_reset|].
  destruct (if is_youtube_playback _ then _ else _); [exact H|].
  head_if.
  - unfold youtube_transcription_branch. simpl.
    destruct (truthy_opt (extract_youtube_query _ _)); simpl; [|exact H].
    match goal with
    | |- context [transcribe_youtube_audio_real ?e ?q ?t ?src ?s0] =>
        pose proof (session_inv_transcribe_youtube e q t src s0 H) as Hy;
        destruct (transcribe_youtube_audio_real e q t src s0) as [[r|x] s2]
    end; exact Hy.
  - unfold dispatch_rest.
    destruct (handle_web_action_command _); [exact H|].
    head_if.
    + unfold file_branch. simpl.
      match goal with
      | |- context [handle_open_file ?e ?f ?q ?s0] =>
          pose proof (session_inv_open_file e f q s0 H) as Ho;
          destruct (handle_open_file e f q s0) as [r s2]
      end. exact Ho.
    + head_if.
      * unfold translation_branch.
        match goal with
        | |- context [handle_translation_command ?e ?q ?s0] =>
            pose proof (session_inv_translation e q s0 H) as Ho;
            destruct (handle_translation_command e q s0) as [r s2]
        end. exact Ho.
      * head_if; [|exact H].
        unfold control_branch.
        match goal with
        | |- context [handle_control_command ?e ?q ?s0] =>
            pose proof (session_inv_control e q s0 H) as Ho;
            destruct (handle_control_command e q s0) as [r s2]
        end. exact Ho.
Qed.

Lemma session_inv_serve_all (rs : list (Env * Request)) (s : Session) :
  session_inv s -> session_inv (serve_all rs s).
Proof.
  revert s. induction rs as [|[env r] rest IH]; intros s H; simpl.
  - exact H.
  - apply IH. destruct r as [question|]; simpl.
    + now apply session_inv_command_handler.
    + apply session_inv_get_next_chunk; [lia | exact H].
Qed.

(** The bound on the chunk size is needed: the function itself, called
    with a negative size, moves the cursor below 0.  The server only ever
    calls it with 500. *)
Remark get_next_chunk_negative_size :
  read_position (snd (get_next_chunk offline_env (-9) reading_session)) = -5.
Proof. reflexivity. Qed.

(** C2.  The invariant [0 <= cursor <= len content], with the cursor at 0
    when the content is empty, holds in the initial session and is kept
    by every operation that changes the session: loading a file, reading
    a chunk (of any size that is not negative; the server asks for 500),
    the control commands, the reset, the two transcription pipelines,
    setting the language, the whole dispatcher, and so every sequence of
    requests. *)
Theorem session_invariant_preserved :
  session_inv initial_session /\
  forall (env : Env) (s : Session),
    session_inv s ->
    (forall file_name command,
        session_inv (snd (handle_open_file env file_name command s))) /\
    (forall size, 0 <= size -> session_inv (snd (get_next_chunk env size s))) /\
    session_inv (snd (read_chunk_handler env s)) /\
    (forall command, session_inv (snd (handle_control_command env command s))) /\
    session_inv (snd (handle_reset_command s)) /\
    (forall file_name target source,
        session_inv (snd (transcribe_video_audio env file_name target source s))) /\
    (forall query target source,
        session_inv (snd (transcribe_youtube_audio_real env query target source s))) /\
    (forall command,
        session_inv (snd (handle_translation_command env command s))) /\
    (forall question, session_inv (snd (command_handler env question s))) /\
    (forall requests, session_inv (serve_all requests s)).
Proof.
  split; [apply session_inv_cursor_zero|].
  intros env s H.
  split; [intros; now apply session_inv_open_file|].
  split; [intros; now apply session_inv_get_next_chunk|].
  split; [apply session_inv_get_next_chunk; [lia | exact H]|].
  split; [intros; now apply session_inv_control|].
  split; [apply session_inv_reset|].
  split; [intros; now apply session_inv_transcribe_video|].
  split; [intros; now apply session_inv_transcribe_youtube|].
  split; [intros; now apply session_inv_translation|].
  split; [intros; now apply session_inv_command_handler|].
  intros; now apply session_inv_serve_all.
Qed.

Lemma session_invariant_preserved_witness :
  session_inv reading_session /\
  session_inv (snd (get_next_chunk offline_env 500 reading_session)) /\
  session_inv (snd (command_handler offline_env "restart" reading_session)).
Proof.
  assert (H : session_inv reading_session).
  { unfold session_inv, reading_session, len. simpl. split; [lia | discriminate]. }
  destruct session_invariant_preserved as [_ Hstep].
  destruct (Hstep offline_env reading_session H)
    as (_ & Hchunk & _ & _ & _ & _ & _ & _ & Hcommand & _).
  split; [exact H|]. split; [apply Hchunk; lia | apply Hcommand].
Defined.

(** ** C5: a failing translation *)

(** C5.  In a session with a non-empty content, the cursor before its end
    and a target language other than English, when the translator raises,
    [get_next_chunk] answers [reading] with the slice
    [content[cursor : min (cursor + size) L]] untranslated and moves the
    cursor to the end of that slice; with a positive chunk size the cursor
    moves forward. *)
Theorem get_next_chunk_translation_failure (env : Env) (size : Z) (s : Session)
  (e : exn) :
  current_file_content s <> "" ->
  read_position s < len (current_file_content s) ->
  translation_language s <> "en" ->
  translator_translate env
    (slice (current_file_content s) (read_position s)
       (Z.min (read_position s + size) (len (current_file_content s))))
    (translation_language s) = Raise e ->
  let chunk_end := Z.min (read_position s + size) (len (current_file_content s)) in
  let r := get_next_chunk env size s in
  status (fst r) = status_reading /\
  chunk (fst r)
  = Some (slice (current_file_content s) (read_position s) chunk_end) /\
  read_position (snd r) = chunk_end /\
  current_file_content (snd r) = current_file_content s /\
  translation_language (snd r) = translation_language s /\
  (0 < size -> read_position s < read_position (snd r)).
Proof.
  intros Hne Hin Hlang Hfail chunk_end r. subst r.
  rewrite get_next_chunk_inside by assumption. simpl.
  unfold translated_chunk. rewrite Hfail.
  apply String.eqb_neq in Hlang. rewrite Hlang. simpl.
  repeat split; try reflexivity. intros Hsize. lia.
Qed.

Lemma get_next_chunk_translation_failure_witness :
  get_next_chunk offline_env 5 reading_session
  = (mkResponse status_reading None (Some "o wor") None,
     mkSession "hello world" 9 "es").
Proof.
  pose proof (get_next_chunk_translation_failure offline_env 5 reading_session
                OtherException) as H.
  simpl in H.
  destruct H as (Hst & Hchunk & Hpos & Hcontent & Hlang & _);
    [discriminate | reflexivity | discriminate | reflexivity |].
  reflexivity.
Defined.

(** ** C6 and C10: reset *)

(** C6.  Whatever the session was, [handle_reset_command] leaves it with
    an empty content and the cursor at 0, and answers with
    [has_content = False] and the action [stop_read]. *)
Theorem handle_reset_command_clears (s : Session) :
  let r := handle_reset_command s in
  current_file_content (snd r) = "" /\
  read_position (snd r) = 0 /\
  has_content (fst r) = Some false /\
  action (fst r) = Some stop_read /\
  status (fst r) = status_success.
Proof. repeat split. Qed.

(** C10.  [handle_reset_command] leaves the target language of the session
    as it was. *)
Theorem handle_reset_command_keeps_language (s : Session) :
  translation_language (snd (handle_reset_command s)) = translation_language s.
Proof. reflexivity. Qed.

(** The dispatcher reaches the reset on each of its four phrases, letter
    case and surrounding blanks apart. *)
Example reset_through_dispatcher :
  command_handler offline_env "  Forget ALL " reading_session
  = (mkResponse status_success (Some stop_read) None (Some false),
     mkSession "" 0 "es").
Proof. vm_compute. reflexivity. Qed.

(** ** C7: the session after a failed transcription *)

(** The local pipeline changes the session only when it answers
    [success]. *)
Lemma transcribe_video_audio_failure (env : Env) (file_name target source : string)
  (s : Session) :
  status (fst (transcribe_video_audio env file_name target source s))
  <> status_success ->
  snd (transcribe_video_audio env file_name target source s) = s.
Proof.
  intros Hfail.
  destruct (transcribe_video_audio_cases env file_name target source s)
    as [[_ Hs]|(text & _ & Hr & _)]; [exact Hs|].
  rewrite Hr in Hfail. now elim Hfail.
Qed.

(** The remote pipeline leaves the session as it was whenever it returns
    an error response: library missing, no video found, no audio stream,
    or an exception inside its [try]. *)
Lemma transcribe_youtube_audio_real_error (env : Env) (query target source : string)
  (s : Session) (r : Response) :
  fst (transcribe_youtube_audio_real env query target source s) = Ok r ->
  status r <> status_success ->
  snd (transcribe_youtube_audio_real env query target source s) = s.
Proof.
  intros Hr Hfail.
  destruct (transcribe_youtube_audio_real_cases env query target source s)
    as [[_ Hs]|(text & _ & [Hok|[e He]])]; [exact Hs | |].
  - rewrite Hok in Hr. injection Hr as <-. now elim Hfail.
  - rewrite He in Hr. discriminate.
Qed.

(** C7.  The remote pipeline on a server where the video is found,
    downloaded and transcribed, and where reading [yt.title] for the
    response raises: the call ends with that exception, and the session,
    assigned three lines earlier, holds the new transcript with the cursor
    at 0 and the new target language instead of what it held before. *)
Theorem transcribe_youtube_audio_real_title_failure :
  transcribe_youtube_audio_real title_fails_env "lecture" "en" "en" reading_session
  = (Raise OtherException, mkSession "good morning" 0 "en") /\
  reading_session = mkSession "hello world" 4 "es".
Proof. split; reflexivity. Qed.

(** ** C3: the field [has_content] *)

Lemma handle_open_file_cases (env : Env) (file_name command : string) (s : Session) :
  let r := handle_open_file env file_name command s in
  (status (fst r) <> status_success /\ snd r = s) \/
  (status (fst r) = status_success /\ current_file_content (snd r) <> "").
Proof.
  unfold handle_open_file.
  set (name := strip file_name).
  set (ext := lower _).
  destruct (path_exists env name); cbn [negb];
    [|left; split; [discriminate|reflexivity]].
  destruct (mem ext MEDIA_FILES && contains "transcribe" command).
  - pose proof (extract_language_codes_session (LANGUAGES env) command s) as Hs1.
    destruct (extract_language_codes (LANGUAGES env) command s) as [[t src] s1].
    simpl in Hs1. subst s1. cbv beta iota.
    match goal with
    | |- context [transcribe_video_audio ?e ?f ?t ?src ?s0] =>
        destruct (transcribe_video_audio_cases e f t src s0)
          as [[Hst Hs]|(text & Hne & Hr & Hs)]
    end.
    + left. rewrite Hst, Hs. split; [discriminate|reflexivity].
    + right. rewrite Hr, Hs. split; [reflexivity|exact Hne].
  - destruct (mem ext MEDIA_FILES).
    + destruct (_ || _); [destruct (open_media env name)|];
        left; split; try discriminate; reflexivity.
    + destruct (mem ext TEXT_EXTRACTION_FILES);
        [|left; split; [discriminate|reflexivity]].
      destruct (extract_file_content env name) as [content|e];
        [|left; split; [discriminate|reflexivity]].
      destruct (truthy content) eqn:Ht;
        [|left; split; [discriminate|reflexivity]].
      right. apply truthy_true_iff in Ht. split; [reflexivity | exact Ht].
Qed.

Lemma handle_translation_command_content (env : Env) (command : string) (s : Session) :
  current_file_content (snd (handle_translation_command env command s))
  = current_file_content s.
Proof.
  unfold handle_translation_command.
  destruct (Nat.ltb _ _); [|reflexivity].
  destruct (get_language_code _ _) as [c|]; [|reflexivity].
  destruct (truthy c); reflexivity.
Qed.


Lemma has_content_set (b : bool) (r : Response) :
  has_content (set_has_content b r) = Some b.
Proof. reflexivity. Qed.


(** C3.  The YouTube transcription branch with a text already loaded and
    a transcription that fails (no video is found): the session still
    holds the text, and the response says [has_content = False]. *)
Theorem command_handler_youtube_failure_has_content :
  let r := command_handler offline_env "transcribe lecture on youtube"
             reading_session in
  snd r = reading_session /\
  truthy (current_file_content (snd r)) = true /\
  status (fst r) = status_error /\
  has_content (fst r) = Some false.
Proof. vm_compute. repeat split. Qed.

(** ** C8: from a code to its name and back *)

Lemma get_language_code_sole_bearer (table : list (string * string))
  (code name : string) :
  dict_get table code = Some name ->
  sole_bearer table code name = true ->
  get_language_code table name = Some code.
Proof.
  induction table as [|[c n] rest IH]; simpl; intros Hget Hsole.
  - discriminate.
  - apply andb_prop in Hsole as [Hhead Hrest].
    destruct (String.eqb (lower n) (lower name)) eqn:En.
    + simpl in Hhead. apply String.eqb_eq in Hhead. now subst c.
    + destruct (String.eqb c code) eqn:Ec.
      * injection Hget as ->. now rewrite String.eqb_refl in En.
      * now apply IH.
Qed.

(** What the lookup returns is the first code of the table that bears the
    name. *)
Lemma get_language_code_first (table : list (string * string))
  (language_name code : string) :
  get_language_code table language_name = Some code ->
  exists before name after,
    table = (before ++ (code, name) :: after)%list /\
    lower name = lower language_name /\
    Forall (fun entry => lower (snd entry) <> lower language_name) before.
Proof.
  induction table as [|[c n] rest IH]; simpl; intros H.
  - discriminate.
  - destruct (String.eqb (lower n) (lower language_name)) eqn:En.
    + injection H as ->. apply String.eqb_eq in En.
      exists [], n, rest. repeat split; [exact En | constructor].
    + destruct (IH H) as (before & name & after & -> & Hname & Hbefore).
      exists ((c, n) :: before), name, after. repeat split; [exact Hname|].
      constructor; [|exact Hbefore]. simpl. now apply String.eqb_neq.
Qed.

Lemma get_language_code_of_bearer (table : list (string * string))
  (code name : string) :
  dict_get table code = Some name ->
  exists code', get_language_code table name = Some code'.
Proof.
  induction table as [|[c n] rest IH]; simpl; intros Hget.
  - discriminate.
  - destruct (String.eqb (lower n) (lower name)) eqn:En; [now exists c|].
    destruct (String.eqb c code) eqn:Ec.
    + injection Hget as ->. now rewrite String.eqb_refl in En.
    + now apply IH.
Qed.

Lemma get_language_code_first_bearer (table : list (string * string))
  (code name : string) :
  dict_get table code = Some name ->
  (get_language_code table name = Some code <->
   no_earlier_bearer table code name = true).
Proof.
  induction table as [|[c n] rest IH]; simpl; intros Hget.
  - discriminate.
  - destruct (String.eqb c code) eqn:Ec.
    + apply String.eqb_eq in Ec. subst c. injection Hget as ->.
      rewrite String.eqb_refl. split; intros _; reflexivity.
    + apply String.eqb_neq in Ec.
      destruct (String.eqb (lower n) (lower name)); simpl.
      * split; [intros H; injection H as H; contradiction | discriminate].
      * now apply IH.
Qed.

(** C8, as the code has it.  For every code of the table, looking its name
    up and resolving the name with [get_language_code] returns the first
    code of the table that bears the name (letter case apart); so the
    round trip returns the code itself exactly when no entry before its
    own bears the same name.  In the table of googletrans that is every
    code but [he]: [iw] and [he] are both [hebrew], [iw] comes first and
    round-trips, [he] comes back as [iw]. *)
Theorem language_code_round_trip :
  (forall (table : list (string * string)) (code name : string),
      dict_get table code = Some name ->
      (exists code' before name' after,
          get_language_code table name = Some code' /\
          table = (before ++ (code', name') :: after)%list /\
          lower name' = lower name /\
          Forall (fun entry => lower (snd entry) <> lower name) before) /\
      (get_language_code table name = Some code <->
       no_earlier_bearer table code name = true)) /\
  forallb (fun entry =>
             Bool.eqb (opt_eqb (get_language_code googletrans_LANGUAGES
                                  (snd entry)) (fst entry))
                      (negb (String.eqb (fst entry) "he")))
          googletrans_LANGUAGES = true /\
  dict_get googletrans_LANGUAGES "iw" = Some "hebrew" /\
  get_language_code googletrans_LANGUAGES "hebrew" = Some "iw" /\
  dict_get googletrans_LANGUAGES "he" = Some "hebrew".
Proof.
  split; [|vm_compute; repeat split].
  intros table code name Hget. split.
  - destruct (get_language_code_of_bearer table code name Hget) as [code' Hcode].
    destruct (get_language_code_first table name code' Hcode)
      as (before & name' & after & Htable & Hname & Hbefore).
    exists code', before, name', after. now repeat split.
  - now apply get_language_code_first_bearer.
Qed.

Lemma language_code_round_trip_witness :
  get_language_code googletrans_LANGUAGES "hebrew" = Some "iw" /\
  get_language_code googletrans_LANGUAGES "spanish" = Some "es".
Proof.
  destruct language_code_round_trip as [Hgeneral _].
  split.
  - apply (Hgeneral googletrans_LANGUAGES "iw" "hebrew"); reflexivity.
  - apply (Hgeneral googletrans_LANGUAGES "es" "spanish"); reflexivity.
Defined.

(** In the table of googletrans the codes [iw] and [he] both bear the name
    [hebrew]; [iw] comes first, so the round trip from [he] ends at
    [iw]. *)
Lemma language_code_round_trip_fails_for_he :
  ~ (forall code name,
        dict_get googletrans_LANGUAGES code = Some name ->
        get_language_code googletrans_LANGUAGES name = Some code).
Proof.
  intros H. specialize (H "he" "hebrew" eq_refl).
  vm_compute in H. discriminate.
Qed.

(** Every other code of that table makes the round trip. *)
Example googletrans_round_trip_but_he :
  forallb (fun entry =>
             String.eqb (fst entry) "he" ||
             opt_eqb (get_language_code googletrans_LANGUAGES (snd entry))
                     (fst entry))
          googletrans_LANGUAGES = true.
Proof. vm_compute. reflexivity. Qed.

(** ** C9: what the language-pair extraction depends on *)

Lemma extract_language_codes_target (table : list (string * string))
  (command : string) (s : Session) :
  fst (fst (extract_language_codes table command s))
  = if defaults_to_session_target table command
    then Some (translation_language s)
    else explicit_target table command.
Proof. reflexivity. Qed.

(** C9, as the code has it.  [extract_language_codes] never writes the
    session, and reads of it the current target language only: the source
    code is the same in every session, and the target code is the target
    language of the session when the command names no target and mentions
    [transcribe] or [translate], and is the same in every session
    otherwise.  Two sessions with the same target language give the same
    pair. *)
Theorem extract_language_codes_session_dependence
  (table : list (string * string)) (command : string) (s1 s2 : Session) :
  snd (extract_language_codes table command s1) = s1 /\
  snd (fst (extract_language_codes table command s1))
  = snd (fst (extract_language_codes table command s2)) /\
  fst (fst (extract_language_codes table command s1))
  = (if defaults_to_session_target table command
     then Some (translation_language s1)
     else explicit_target table command) /\
  (defaults_to_session_target table command = false ->
   fst (extract_language_codes table command s1)
   = fst (extract_language_codes table command s2)) /\
  (translation_language s1 = translation_language s2 ->
   fst (extract_language_codes table command s1)
   = fst (extract_language_codes table command s2)).
Proof.
  split; [reflexivity|]. split; [reflexivity|]. split; [reflexivity|].
  split.
  - intros Hdef.
    rewrite (surjective_pairing (fst (extract_language_codes table command s1))).
    rewrite (surjective_pairing (fst (extract_language_codes table command s2))).
    rewrite !extract_language_codes_target, Hdef. reflexivity.
  - intros Hlang. unfold extract_language_codes. simpl. now rewrite Hlang.
Qed.

Lemma extract_language_codes_session_dependence_witness :
  fst (extract_language_codes googletrans_LANGUAGES
         "translate to spanish from french lecture.pdf" initial_session)
  = fst (extract_language_codes googletrans_LANGUAGES
           "translate to spanish from french lecture.pdf" reading_session).
Proof.
  destruct (extract_language_codes_session_dependence googletrans_LANGUAGES
              "translate to spanish from french lecture.pdf" initial_session reading_session)
    as (_ & _ & _ & Hexplicit & _).
  apply Hexplicit. vm_compute. reflexivity.
Defined.

(** The same command in two sessions that differ in their target language
    gives two different pairs. *)
Lemma extract_language_codes_reads_session :
  ~ (forall command s1 s2,
        fst (extract_language_codes googletrans_LANGUAGES command s1)
        = fst (extract_language_codes googletrans_LANGUAGES command s2)).
Proof.
  intros H.
  specialize (H "transcribe lecture" initial_session reading_session).
  vm_compute in H. discriminate.
Qed.

(** ** C4: the command of the specification *)

Lemma translate_video_command_clean :
  clean_command_of SUPPORTED_EXTENSIONS (lower translate_video_command)
  = "translate to spanish from french my_video".
Proof. reflexivity. Qed.

(** C4.  On the command [translate to spanish from french my_video.mp4],
    with a table in which [spanish] resolves to [es] and [french] to [fr],
    the language-pair extraction gives the target [es] and the source
    [fr] in every session, as the specification says.  The file name
    extraction does not give [my_video.mp4]: the keywords are looked for
    as pieces of text, [video] is found inside the file name, and what
    comes out is [.mp4], the text after it. *)
Theorem parser_on_translate_video_command (table : list (string * string))
  (s : Session) :
  get_language_code table "spanish" = Some "es" ->
  get_language_code table "french" = Some "fr" ->
  fst (extract_language_codes table translate_video_command s)
  = (Some "es", Some "fr") /\
  extract_filename_from_command translate_video_command = Some ".mp4" /\
  extract_filename_from_command translate_video_command <> Some "my_video.mp4".
Proof.
  intros Hes Hfr. split; [|split; [reflexivity | discriminate]].
  unfold extract_language_codes.
  rewrite translate_video_command_clean.
  cbn -[get_language_code]. rewrite Hes.
  cbn -[get_language_code]. rewrite Hfr. reflexivity.
Qed.

Lemma parser_on_translate_video_command_witness :
  fst (extract_language_codes googletrans_LANGUAGES translate_video_command
         initial_session)
  = (Some "es", Some "fr") /\
  extract_filename_from_command translate_video_command = Some ".mp4" /\
  extract_filename_from_command translate_video_command <> Some "my_video.mp4".
Proof.
  apply (parser_on_translate_video_command googletrans_LANGUAGES initial_session);
    vm_compute; reflexivity.
Defined.

(** The same happens to every file name that contains a keyword: [read]
    inside [spreadsheet], and [video] in the command that the sibling
    server gives as its own example. *)
Example filename_spreadsheet :
  extract_filename_from_command "transcribe spreadsheet.mp4" = Some "sheet.mp4".
Proof. reflexivity. Qed.

Example filename_documented_command :
  extract_filename_from_command
    "transcribe and translate to hindi from english video.mp4"
  = Some ".mp4".
Proof. reflexivity. Qed.

(** The file name extracted from that command is not [my_video.mp4]. *)
Lemma parser_on_translate_video_command_filename :
  ~ (fst (extract_language_codes googletrans_LANGUAGES translate_video_command
            initial_session)
     = (Some "es", Some "fr") /\
     extract_filename_from_command translate_video_command
     = Some "my_video.mp4").
Proof. intros [_ H]. vm_compute in H. discriminate. Qed.

(** * Further properties of the code *)

(** ** The reading session at its edges *)

Lemma get_next_chunk_empty (env : Env) (size : Z) (s : Session) :
  current_file_content s = "" ->
  get_next_chunk env size s = (mkResponse status_done None (Some "") None, s).
Proof.
  intros Hempty. unfold get_next_chunk. now rewrite Hempty.
Qed.

(** X1.  Once [get_next_chunk] has answered [done] (no text loaded, or the
    cursor at or beyond the end) the chunk is empty, the text and the
    target language are as they were, with no text loaded the cursor has
    not moved either, and every later call, with any chunk size, answers
    [done] again and changes nothing. *)
Theorem get_next_chunk_done_is_final (env : Env) (size size' : Z) (s : Session) :
  status (fst (get_next_chunk env size s)) = status_done ->
  let s1 := snd (get_next_chunk env size s) in
  chunk (fst (get_next_chunk env size s)) = Some "" /\
  current_file_content s1 = current_file_content s /\
  translation_language s1 = translation_language s /\
  (current_file_content s = "" -> s1 = s) /\
  (current_file_content s <> "" ->
   read_position s1 = len (current_file_content s)) /\
  get_next_chunk env size' s1
  = (mkResponse status_done None (Some "") None, s1).
Proof.
  intros Hdone. cbv zeta.
  destruct (truthy (current_file_content s)) eqn:Ht.
  - apply truthy_true_iff in Ht.
    destruct (Z_lt_le_dec (read_position s) (len (current_file_content s)))
      as [Hin|Hend].
    + rewrite get_next_chunk_inside in Hdone by assumption. discriminate.
    + rewrite !get_next_chunk_at_end by assumption. simpl.
      repeat split; try reflexivity; try contradiction;
        rewrite get_next_chunk_at_end; simpl; try assumption; try lia;
        reflexivity.
  - apply truthy_false_iff in Ht.
    rewrite !get_next_chunk_empty by assumption. simpl.
    repeat split; try reflexivity; try contradiction;
      now apply get_next_chunk_empty.
Qed.

Lemma get_next_chunk_done_is_final_witness :
  get_next_chunk offline_env 3
    (snd (get_next_chunk offline_env 500 (mkSession "hello" 9 "en")))
  = (mkResponse status_done None (Some "") None, mkSession "hello" 5 "en").
Proof.
  destruct (get_next_chunk_done_is_final offline_env 500 3
              (mkSession "hello" 9 "en") eq_refl) as (_ & _ & _ & _ & _ & H).
  exact H.
Defined.

(** X2.  [get_next_chunk] never changes the text or the target language;
    in a session that meets the invariant, with a chunk size that is not
    negative, the cursor never moves back and stays within the text. *)
Theorem get_next_chunk_frame (env : Env) (size : Z) (s : Session) :
  let s' := snd (get_next_chunk env size s) in
  current_file_content s' = current_file_content s /\
  translation_language s' = translation_language s /\
  (session_inv s -> 0 <= size ->
   read_position s <= read_position s' <= len (current_file_content s)).
Proof.
  unfold get_next_chunk.
  destruct (truthy (current_file_content s)); simpl.
  - destruct (len (current_file_content s) <=? read_position s) eqn:E; simpl.
    + apply Z.leb_le in E.
      split; [reflexivity|]. split; [reflexivity|]. intros [H _] Hsize. lia.
    + apply Z.leb_gt in E.
      split; [reflexivity|]. split; [reflexivity|]. intros [H _] Hsize. lia.
  - split; [reflexivity|]. split; [reflexivity|]. intros [H _] Hsize. lia.
Qed.

Lemma get_next_chunk_frame_witness :
  4 <= read_position (snd (get_next_chunk offline_env 3 reading_session)) <= 11.
Proof.
  destruct (get_next_chunk_frame offline_env 3 reading_session) as (_ & _ & H).
  apply H; [|lia].
  unfold session_inv, reading_session, len. simpl. split; [lia | discriminate].
Defined.

(** X3.  Read in English, a chunk is never longer than the chunk size: it
    has [min size (L - cursor)] characters, the whole size until the last
    chunk. *)
Theorem get_next_chunk_english_length (env : Env) (size : Z) (s : Session) :
  session_inv s ->
  0 < size ->
  translation_language s = "en" ->
  read_position s < len (current_file_content s) ->
  exists c,
    chunk (fst (get_next_chunk env size s)) = Some c /\
    c = slice (current_file_content s) (read_position s)
          (read_position s + size) /\
    len c = Z.min size (len (current_file_content s) - read_position s).
Proof.
  intros [Hpos _] Hsize Hen Hin.
  assert (Hne : current_file_content s <> "").
  { intros E. rewrite E in Hin. unfold len in Hin. simpl in Hin. lia. }
  rewrite get_next_chunk_inside by assumption. simpl.
  unfold translated_chunk. rewrite Hen. simpl.
  eexists. split; [reflexivity|].
  set (L := len (current_file_content s)) in *.
  set (p := read_position s) in *.
  assert (Hslice : slice (current_file_content s) p (Z.min (p + size) L)
                   = slice (current_file_content s) p (p + size)).
  { unfold slice, clamp. fold L.
    destruct (p <? 0) eqn:E1; [apply Z.ltb_lt in E1; lia|].
    destruct (Z.min (p + size) L <? 0) eqn:E2; [apply Z.ltb_lt in E2; lia|].
    destruct (p + size <? 0) eqn:E3; [apply Z.ltb_lt in E3; lia|].
    replace (Z.min (Z.min (p + size) L) L) with (Z.min (p + size) L) by lia.
    reflexivity. }
  split; [exact Hslice|].
  rewrite len_slice_inside; fold L; lia.
Qed.

Lemma get_next_chunk_english_length_witness :
  exists c,
    chunk (fst (get_next_chunk offline_env 4 (mkSession "hello world" 8 "en")))
    = Some c /\ len c = 3.
Proof.
  destruct (get_next_chunk_english_length offline_env 4
              (mkSession "hello world" 8 "en")) as (c & Hc & _ & Hlen).
  - unfold session_inv, len. simpl. split; [lia | discriminate].
  - lia.
  - reflexivity.
  - unfold len. simpl. lia.
  - exists c. split; [exact Hc | exact Hlen].
Defined.

(** ** Opening a file *)

(** Without [transcribe] in the command, a successful [handle_open_file]
    has loaded the text that [extract_file_content] returned. *)
Lemma handle_open_file_text (env : Env) (file_name command : string) (s : Session) :
  contains "transcribe" command = false ->
  status (fst (handle_open_file env file_name command s)) = status_success ->
  exists text,
    extract_file_content env (strip file_name) = Ok text /\
    text <> "" /\
    handle_open_file env file_name command s
    = (with_action status_success start_read,
       mkSession text 0 (translation_language s)).
Proof.
  intros Hno. unfold handle_open_file.
  set (name := strip file_name). set (ext := lower _).
  rewrite Hno, andb_false_r.
  destruct (path_exists env name); cbn [negb]; [|discriminate].
  destruct (mem ext MEDIA_FILES).
  - destruct (_ || _); [destruct (open_media env name)|]; discriminate.
  - destruct (mem ext TEXT_EXTRACTION_FILES); [|discriminate].
    destruct (extract_file_content env name) as [content|e]; [|discriminate].
    destruct (truthy content) eqn:Ht; [|discriminate].
    intros _. exists content. apply truthy_true_iff in Ht. now repeat split.
Qed.



(** Reading a text in English from its start delivers the text. *)
Lemma read_whole_text (env : Env) (size : Z) (s : Session) :
  0 < size ->
  current_file_content s <> "" ->
  read_position s = 0 ->
  translation_language s = "en" ->
  exists chunks,
    read_until_done env size (S (Z.to_nat (len (current_file_content s)))) s
    = Some (chunks, set_read_position (len (current_file_content s)) s) /\
    concat_strings (map snd chunks) = current_file_content s.
Proof.
  intros Hsize Hne Hpos Hen.
  pose proof (len_nonneg (current_file_content s)) as HL.
  destruct (read_until_done_from env size
              (S (Z.to_nat (len (current_file_content s)))) s)
    as (chunks & Hrun & Htiles & Htext); try assumption; try (rewrite Hpos; lia).
  exists chunks. split; [exact Hrun|].
  rewrite Hpos in Htiles.
  pose proof (tiles_concat (current_file_content s) size 0 (map range_of chunks)
                (conj (Z.le_refl 0) HL) Htiles) as Hcat.
  simpl in Hcat. rewrite <- Hcat, map_map. f_equal.
  apply map_ext_in. intros c Hc.
  rewrite Forall_forall in Htext. rewrite (Htext c Hc).
  unfold translated_chunk. now rewrite Hen.
Qed.

(** X5.  A document opened while the target language is English and then
    read to the end, with any positive chunk size, is delivered whole: the
    chunks put end to end are the text that [extract_file_content]
    returned, and the cursor ends on its length. *)
Theorem open_then_read_delivers_text (env : Env) (file_name command : string)
  (size : Z) (s : Session) :
  0 < size ->
  translation_language s = "en" ->
  contains "transcribe" command = false ->
  status (fst (handle_open_file env file_name command s)) = status_success ->
  exists text chunks s',
    extract_file_content env (strip file_name) = Ok text /\
    read_until_done env size (S (Z.to_nat (len text)))
      (snd (handle_open_file env file_name command s))
    = Some (chunks, s') /\
    concat_strings (map snd chunks) = text /\
    current_file_content s' = text /\
    read_position s' = len text.
Proof.
  intros Hsize Hen Hno Hok.
  destruct (handle_open_file_text env file_name command s Hno Hok)
    as (text & Hextract & Hne & ->).
  simpl.
  destruct (read_whole_text env size (mkSession text 0 (translation_language s)))
    as (chunks & Hrun & Hcat); try assumption; try reflexivity.
  simpl in *. exists text, chunks. eexists.
  split; [exact Hextract|]. split; [exact Hrun|]. now repeat split.
Qed.

Lemma open_then_read_delivers_text_witness :
  exists chunks s',
    read_until_done notes_env 10 24
      (snd (handle_open_file notes_env "notes.txt" "open notes.txt" initial_session))
    = Some (chunks, s') /\
    concat_strings (map snd chunks) = "first line, second line".
Proof.
  destruct (open_then_read_delivers_text notes_env "notes.txt" "open notes.txt"
              10 initial_session)
    as (text & chunks & s' & Hextract & Hrun & Hcat & _);
    [lia | reflexivity | reflexivity | reflexivity |].
  injection Hextract as <-.
  exists chunks, s'. split; [exact Hrun | exact Hcat].
Defined.

(** ** Control commands *)

(** X6.  A control command never changes the text or the target language,
    and only [restart] moves the cursor.  When it answers with the action
    [start_read] (a restart or a resume that found text left), the next
    [get_next_chunk] answers [reading], whatever the chunk size. *)
Theorem handle_control_command_effect (env : Env) (command : string) (size : Z)
  (s : Session) :
  let r := handle_control_command env command s in
  current_file_content (snd r) = current_file_content s /\
  translation_language (snd r) = translation_language s /\
  (command <> "restart" -> snd r = s) /\
  (action (fst r) = Some start_read ->
   status (fst (get_next_chunk env size (snd r))) = status_reading).
Proof.
  cbv zeta. unfold handle_control_command.
  destruct (startswith "set reading speed to" command).
  { destruct (float_parses env _); simpl; repeat split; discriminate. }
  destruct (String.eqb command "restart") eqn:Erestart.
  { destruct (truthy (current_file_content s)) eqn:Ht; simpl.
    - apply String.eqb_eq in Erestart.
      split; [reflexivity|]. split; [reflexivity|]. split; [congruence|].
      intros _. apply truthy_true_iff in Ht.
      rewrite get_next_chunk_inside; simpl; [reflexivity | exact Ht |].
      pose proof (len_nonneg (current_file_content s)).
      destruct (Z.eq_dec (len (current_file_content s)) 0) as [E|E]; [|lia].
      apply len_zero_iff in E. contradiction.
    - repeat split; discriminate. }
  destruct (String.eqb command "resume").
  { destruct (truthy (current_file_content s)) eqn:Ht; simpl;
      [|repeat split; discriminate].
    destruct (len (current_file_content s) <=? read_position s) eqn:E; simpl;
      [repeat split; discriminate|].
    split; [reflexivity|]. split; [reflexivity|]. split; [reflexivity|].
    intros _. apply truthy_true_iff in Ht. apply Z.leb_gt in E.
    now rewrite get_next_chunk_inside. }
  destruct (mem command _); simpl; repeat split; discriminate.
Qed.

Lemma handle_control_command_effect_witness :
  status (fst (get_next_chunk offline_env 500
                 (snd (handle_control_command offline_env "restart"
                         reading_session))))
  = status_reading.
Proof.
  destruct (handle_control_command_effect offline_env "restart" 500
              reading_session) as (_ & _ & _ & H).
  apply H. reflexivity.
Defined.

(** X7.  [restart] on a loaded text answers [start_read] and puts the
    cursor at 0 from any position; read in English from there to the end,
    the text is delivered whole again.  With no text loaded it answers
    [info] and changes nothing. *)
Theorem restart_then_read (env : Env) (size : Z) (s : Session) :
  0 < size ->
  translation_language s = "en" ->
  let r := handle_control_command env "restart" s in
  (current_file_content s = "" -> r = (plain status_info, s)) /\
  (current_file_content s <> "" ->
   r = (with_action status_action start_read, set_read_position 0 s) /\
   exists chunks,
     read_until_done env size (S (Z.to_nat (len (current_file_content s)))) (snd r)
     = Some (chunks, set_read_position (len (current_file_content s)) s) /\
     concat_strings (map snd chunks) = current_file_content s).
Proof.
  intros Hsize Hen. cbv zeta.
  unfold handle_control_command. simpl. split.
  - intros Hempty. now rewrite Hempty.
  - intros Hne. apply truthy_true_iff in Hne as Ht. rewrite Ht. simpl.
    split; [reflexivity|].
    destruct (read_whole_text env size (set_read_position 0 s))
      as (chunks & Hrun & Hcat); try assumption; try reflexivity.
    exists chunks. split; [exact Hrun | exact Hcat].
Qed.

Lemma restart_then_read_witness :
  exists chunks,
    read_until_done offline_env 4 12
      (snd (handle_control_command offline_env "restart"
              (mkSession "hello world" 9 "en")))
    = Some (chunks, mkSession "hello world" 11 "en") /\
    concat_strings (map snd chunks) = "hello world".
Proof.
  destruct (restart_then_read offline_env 4 (mkSession "hello world" 9 "en"))
    as [_ H]; [lia | reflexivity |].
  destruct H as [_ H]; [discriminate|]. exact H.
Defined.

(** ** Setting the target language *)

Lemma handle_translation_command_cursor (env : Env) (command : string) (s : Session) :
  read_position (snd (handle_translation_command env command s))
  = read_position s.
Proof.
  unfold handle_translation_command.
  destruct (Nat.ltb _ _); [|reflexivity].
  destruct (get_language_code _ _) as [c|]; [|reflexivity].
  destruct (truthy c); reflexivity.
Qed.

(** X8.  [handle_translation_command] never changes the text or the
    cursor.  It answers [success] exactly when the text after the last
    [to] of the command, blanks stripped, is the name of a language of the
    table (letter case apart) with a non-empty code; the target language
    is then that code, the first of the table with the name.  Otherwise
    the session is left as it was. *)
Theorem handle_translation_command_effect (env : Env) (command : string)
  (s : Session) :
  let r := handle_translation_command env command s in
  current_file_content (snd r) = current_file_content s /\
  read_position (snd r) = read_position s /\
  (status (fst r) = status_success ->
   exists before name after,
     LANGUAGES env
     = (before ++ (translation_language (snd r), name) :: after)%list /\
     lower name = lower (strip (after_last "to" command)) /\
     Forall (fun entry =>
               lower (snd entry) <> lower (strip (after_last "to" command)))
            before /\
     translation_language (snd r) <> "") /\
  (status (fst r) <> status_success -> snd r = s).
Proof.
  cbv zeta. unfold handle_translation_command.
  destruct (Nat.ltb _ _); [|simpl; repeat split; try discriminate].
  destruct (get_language_code _ _) as [code|] eqn:Hcode;
    [|simpl; repeat split; try discriminate].
  destruct (truthy code) eqn:Ht; [|simpl; repeat split; try discriminate].
  simpl. split; [reflexivity|]. split; [reflexivity|]. split.
  - intros _. destruct (get_language_code_first _ _ _ Hcode)
      as (before & name & after & Htable & Hname & Hbefore).
    exists before, name, after. apply truthy_true_iff in Ht. now repeat split.
  - intros H. now elim H.
Qed.

Lemma handle_translation_command_effect_witness :
  translation_language
    (snd (handle_translation_command offline_env "translate to French"
            reading_session)) <> "".
Proof.
  destruct (handle_translation_command_effect offline_env "translate to French"
              reading_session) as (_ & _ & H & _).
  destruct (H eq_refl) as (before & name & after & _ & _ & _ & Hne).
  exact Hne.
Defined.

(** X9.  After a language change that succeeded in the middle of a text,
    the next chunk starts at the cursor where the reading stood, not at
    the start, and ends [size] characters further or at the end of the
    text.  What is delivered is what the translator returns for that
    piece of text and the new language; it is the piece itself when the
    translator raises or when the new language is English. *)
Theorem translate_then_next_chunk (env : Env) (command : string) (size : Z)
  (s : Session) :
  status (fst (handle_translation_command env command s)) = status_success ->
  current_file_content s <> "" ->
  read_position s < len (current_file_content s) ->
  let s1 := snd (handle_translation_command env command s) in
  let lang := translation_language s1 in
  let chunk_end := Z.min (read_position s + size) (len (current_file_content s)) in
  let original := slice (current_file_content s) (read_position s) chunk_end in
  exists delivered,
    get_next_chunk env size s1
    = (mkResponse status_reading None (Some delivered) None,
       mkSession (current_file_content s) chunk_end lang) /\
    (forall translated,
        lang <> "en" ->
        translator_translate env original lang = Ok translated ->
        delivered = translated) /\
    (forall e,
        translator_translate env original lang = Raise e ->
        delivered = original) /\
    (lang = "en" -> delivered = original).
Proof.
  intros Hok Hne Hin. cbv zeta.
  pose proof (handle_translation_command_content env command s) as Hcontent.
  pose proof (handle_translation_command_cursor env command s) as Hpos.
  rewrite get_next_chunk_inside by (rewrite ?Hcontent, ?Hpos; assumption).
  cbv zeta. unfold set_read_position. rewrite Hcontent, Hpos.
  eexists. split; [reflexivity|].
  unfold translated_chunk. split; [|split].
  - intros translated Hlang Htr. apply String.eqb_neq in Hlang.
    now rewrite Hlang, Htr.
  - intros e Htr. rewrite Htr. now destruct (negb _).
  - intros Hlang. now rewrite Hlang.
Qed.

Lemma translate_then_next_chunk_witness :
  get_next_chunk studio_env 4
    (snd (handle_translation_command studio_env "translate to french"
            reading_session))
  = (mkResponse status_reading None (Some "good morning") None,
     mkSession "hello world" 8 "fr").
Proof.
  destruct (translate_then_next_chunk studio_env "translate to french" 4
              reading_session)
    as (delivered & Hrun & Htranslated & _ & _);
    [reflexivity | discriminate | unfold len; simpl; lia |].
  rewrite (Htranslated "good morning") in Hrun;
    [exact Hrun | discriminate | reflexivity].
Defined.

(** ** What a successful transcription went through *)

(** X10.  When the local pipeline answers [success], moviepy is installed,
    the audio was extracted, the recogniser returned a transcript that is
    not empty and the detector a language; the text loaded is the
    transcript itself when the detected language is the requested target
    and its translation otherwise, it is not empty, the cursor is at 0 and
    the target language of the session is the requested one.  So a
    failure of the detector or of the translator fails the request. *)
Theorem transcribe_video_audio_success (env : Env)
  (file_name target source : string) (s : Session) :
  let r := transcribe_video_audio env file_name target source s in
  status (fst r) = status_success ->
  exists transcript lang final,
    MOVIEPY_AVAILABLE env = true /\
    extract_audio env file_name = Ok tt /\
    recognize_google env file_name source = Ok transcript /\
    transcript <> "" /\
    translator_detect env transcript = Ok lang /\
    (lang = target -> final = transcript) /\
    (lang <> target -> translator_translate env transcript target = Ok final) /\
    final <> "" /\
    r = (with_action status_success start_read, mkSession final 0 target).
Proof.
  cbv zeta. unfold transcribe_video_audio, video_try_block, detect_and_translate.
  destruct (MOVIEPY_AVAILABLE env); simpl; [|discriminate].
  destruct (extract_audio env file_name) as [[]|e]; simpl; [|discriminate].
  destruct (recognize_google env file_name source) as [transcript|e]; simpl;
    [|discriminate].
  destruct (truthy transcript) eqn:Ht; simpl; [|discriminate].
  destruct (translator_detect env transcript) as [lang|e] eqn:Hdet; simpl;
    [|discriminate].
  apply truthy_true_iff in Ht.
  destruct (String.eqb lang target) eqn:El; simpl.
  - apply String.eqb_eq in El. rewrite (proj2 (truthy_true_iff _) Ht). simpl.
    intros _. exists transcript, lang, transcript.
    repeat split; try assumption; try reflexivity;
      intros H; first [contradiction | assumption].
  - apply String.eqb_neq in El.
    destruct (translator_translate env transcript target) as [final|e] eqn:Htr;
      simpl; [|discriminate].
    destruct (truthy final) eqn:Hf; simpl; [|discriminate].
    apply truthy_true_iff in Hf.
    intros _. exists transcript, lang, final.
    repeat split; try assumption; try reflexivity;
      intros H; first [contradiction | assumption].
Qed.

Lemma transcribe_video_audio_success_witness :
  transcribe_video_audio studio_env "clip.mp4" "en" "es" reading_session
  = (with_action status_success start_read, mkSession "good morning" 0 "en").
Proof.
  destruct (transcribe_video_audio_success studio_env "clip.mp4" "en" "es"
              reading_session eq_refl)
    as (transcript & lang & final & _ & _ & Hrec & _ & Hdet & _ & Htr & _ & Hr).
  injection Hrec as <-. injection Hdet as <-.
  assert (Hfinal : Ok "good morning" = Ok final) by (apply Htr; discriminate).
  injection Hfinal as <-. exact Hr.
Defined.

(** X11.  When the remote pipeline returns a [success] response, pytube and
    requests are installed, the search found a video with an audio stream
    that was downloaded, the recogniser returned a transcript that is not
    empty and the detector a language; the text loaded is the transcript
    or its translation, as in the local pipeline, with the cursor at 0 and
    the requested target language.  Unlike the local pipeline it does not
    check that the translation is not empty. *)
Theorem transcribe_youtube_audio_real_success (env : Env)
  (query target source : string) (s : Session) (response : Response) :
  let r := transcribe_youtube_audio_real env query target source s in
  fst r = Ok response ->
  status response = status_success ->
  exists video_id transcript lang final,
    PYTUBE_AVAILABLE env = true /\
    REQUESTS_AVAILABLE env = true /\
    youtube_search env query = Some video_id /\ video_id <> "" /\
    yt_audio_stream env video_id = Ok true /\
    yt_download env video_id = Ok true /\
    recognize_google env video_id source = Ok transcript /\
    transcript <> "" /\
    translator_detect env transcript = Ok lang /\
    (lang = target -> final = transcript) /\
    (lang <> target -> translator_translate env transcript target = Ok final) /\
    r = (Ok (with_action status_success start_read), mkSession final 0 target).
Proof.
  cbv zeta. unfold transcribe_youtube_audio_real, search_youtube_simple.
  destruct (PYTUBE_AVAILABLE env); simpl;
    [|intros H; injection H as <-; discriminate].
  destruct (REQUESTS_AVAILABLE env); simpl;
    [|intros H; injection H as <-; discriminate].
  destruct (youtube_search env query) as [video_id|]; simpl;
    [|intros H; injection H as <-; discriminate].
  destruct (truthy video_id) eqn:Hv; simpl;
    [|intros H; injection H as <-; discriminate].
  unfold youtube_try_block, detect_and_translate.
  destruct (yt_audio_stream env video_id) as [[|]|e] eqn:Hst; simpl;
    try (intros H; injection H as <-; discriminate).
  destruct (yt_download env video_id) as [[|]|e] eqn:Hdl; simpl;
    try (intros H; injection H as <-; discriminate).
  destruct (recognize_google env video_id source) as [transcript|e] eqn:Hrec;
    simpl;
    [|intros H; injection H as <-; discriminate].
  destruct (truthy transcript) eqn:Ht; simpl;
    [|intros H; injection H as <-; discriminate].
  destruct (translator_detect env transcript) as [lang|e] eqn:Hdet; simpl;
    [|intros H; injection H as <-; discriminate].
  apply truthy_true_iff in Hv, Ht.
  destruct (String.eqb lang target) eqn:El; simpl.
  - apply String.eqb_eq in El.
    destruct (yt_title env video_id); simpl; [|discriminate].
    intros _ _. exists video_id, transcript, lang, transcript.
    repeat split; try assumption; try reflexivity;
      intros H; first [contradiction | assumption].
  - apply String.eqb_neq in El.
    destruct (translator_translate env transcript target) as [final|e] eqn:Htr;
      simpl;
      [|intros H; injection H as <-; discriminate].
    destruct (yt_title env video_id); simpl; [|discriminate].
    intros _ _. exists video_id, transcript, lang, final.
    repeat split; try assumption; try reflexivity;
      intros H; first [contradiction | assumption].
Qed.

Lemma transcribe_youtube_audio_real_success_witness :
  transcribe_youtube_audio_real studio_env "clip" "en" "es" reading_session
  = (Ok (with_action status_success start_read), mkSession "good morning" 0 "en").
Proof.
  destruct (transcribe_youtube_audio_real_success studio_env "clip" "en" "es"
              reading_session (with_action status_success start_read)
              eq_refl eq_refl)
    as (v & transcript & lang & final & _ & _ & Hv & _ & _ & _ & Hrec & _ & Hdet
        & _ & Htr & Hr).
  injection Hv as <-. injection Hrec as <-. injection Hdet as <-.
  assert (Hfinal : Ok "good morning" = Ok final) by (apply Htr; discriminate).
  injection Hfinal as <-. exact Hr.
Defined.

(** ** The registry lookup *)

Lemma get_language_code_none (table : list (string * string)) (name : string) :
  get_language_code table name = None <->
  Forall (fun entry => lower (snd entry) <> lower name) table.
Proof.
  induction table as [|[c n] rest IH]; simpl.
  - split; [constructor | reflexivity].
  - destruct (String.eqb (lower n) (lower name)) eqn:En.
    + apply String.eqb_eq in En. split; [discriminate|].
      intros H. inversion H as [|x l Hx Hl]. simpl in Hx. contradiction.
    + apply String.eqb_neq in En. rewrite IH. split.
      * intros H. constructor; assumption.
      * intros H. now inversion H.
Qed.

Lemma get_language_code_case (table : list (string * string)) (name name' : string) :
  lower name' = lower name ->
  get_language_code table name' = get_language_code table name.
Proof.
  intros Hcase. induction table as [|[c n] rest IH]; simpl.
  - reflexivity.
  - now rewrite Hcase, IH.
Qed.

(** X12.  [get_language_code] does not look at letter case, in the table
    or in the name asked for; it returns the code of the first entry of
    the table that bears the name, and [None] exactly when no entry bears
    it. *)
Theorem get_language_code_lookup (table : list (string * string)) (name : string) :
  (forall name', lower name' = lower name ->
                 get_language_code table name' = get_language_code table name) /\
  (get_language_code table name = None <->
   Forall (fun entry => lower (snd entry) <> lower name) table) /\
  (forall code,
      get_language_code table name = Some code ->
      exists before n after,
        table = (before ++ (code, n) :: after)%list /\
        lower n = lower name /\
        Forall (fun entry => lower (snd entry) <> lower name) before).
Proof.
  split; [intros name'; apply get_language_code_case|].
  split; [apply get_language_code_none|].
  intros code. apply get_language_code_first.
Qed.

Lemma get_language_code_lookup_witness :
  get_language_code googletrans_LANGUAGES "FRENCH"
  = get_language_code googletrans_LANGUAGES "French".
Proof.
  destruct (get_language_code_lookup googletrans_LANGUAGES "French") as [H _].
  apply H. reflexivity.
Defined.

(** ** The dispatcher as a whole *)

Lemma startswith_app_l (a b s : string) :
  startswith (a ++ b) s = true -> startswith a s = true.
Proof.
  revert s. induction a as [|c a IH]; intros s H; simpl in *.
  - reflexivity.
  - destruct s as [|d s]; [discriminate|].
    apply andb_prop in H as [Hc Ha]. rewrite Hc. simpl. now apply IH.
Qed.

Lemma contains_app_l (a b s : string) :
  contains (a ++ b) s = true -> contains a s = true.
Proof.
  induction s as [|d s IH]; simpl; intros H.
  - apply orb_prop in H as [H|H]; [|discriminate].
    apply startswith_app_l in H. now rewrite H.
  - apply orb_prop in H as [H|H].
    + apply startswith_app_l in H. now rewrite H.
    + rewrite (IH H). apply orb_true_r.
Qed.

Lemma handle_control_command_unchanged (env : Env) (command : string) (s : Session) :
  action (fst (handle_control_command env command s)) <> Some start_read ->
  snd (handle_control_command env command s) = s.
Proof.
  unfold handle_control_command.
  repeat match goal with
         | |- context [if ?b then _ else _] => destruct b; simpl
         end; try reflexivity.
  intros H. now elim H.
Qed.

Lemma handle_translation_command_unchanged (env : Env) (command : string)
  (s : Session) :
  status (fst (handle_translation_command env command s)) <> status_success ->
  snd (handle_translation_command env command s) = s.
Proof.
  unfold handle_translation_command.
  destruct (Nat.ltb _ _); [|reflexivity].
  destruct (get_language_code _ _) as [c|]; [|reflexivity].
  destruct (truthy c); [|reflexivity].
  simpl. intros H. now elim H.
Qed.

(** X13.  Outside the YouTube transcription, the dispatcher changes the
    session only when it answers [success] or with the action
    [start_read]: every other response (an [info], an [error], an
    [open_url], a video to play, a reading rate) leaves the text, the
    cursor and the target language as they were. *)
Theorem command_handler_changes_session (env : Env) (question0 : string)
  (s : Session) :
  let r := command_handler env question0 s in
  is_youtube_transcription (lower (strip question0)) = false ->
  status (fst r) <> status_success ->
  action (fst r) <> Some start_read ->
  snd r = s.
Proof.
  cbv zeta. intros Hyt. unfold command_handler. rewrite Hyt.
  destruct (mem _ _); [simpl; intros H; now elim H|].
  destruct (if is_youtube_playback _ then _ else _); [reflexivity|].
  unfold dispatch_rest.
  destruct (handle_web_action_command _); [reflexivity|].
  destruct (truthy_opt _ && contains_any _ _).
  - unfold file_branch.
    pose proof (extract_language_codes_session (LANGUAGES env)
                  (lower (strip question0)) s) as Hs1.
    destruct (extract_language_codes _ _ s) as [codes s1].
    simpl in Hs1. subst s1. cbv beta iota.
    match goal with
    | |- context [handle_open_file ?e ?f ?q ?s0] =>
        destruct (handle_open_file_cases e f q s0) as [[Hst Hs]|[Hst Hne]];
        destruct (handle_open_file e f q s0) as [r s2]
    end; simpl in *.
    + intros _ _. exact Hs.
    + intros H. now elim H.
  - destruct (contains "translate to" _).
    + unfold translation_branch.
      match goal with
      | |- context [handle_translation_command ?e ?q ?s0] =>
          pose proof (handle_translation_command_unchanged e q s0) as Hc;
          destruct (handle_translation_command e q s0) as [r s2]
      end. simpl in *.
      intros Hst _. apply Hc.
      destruct (_ && _); exact Hst.
    + destruct (is_control _); [|reflexivity].
      unfold control_branch.
      match goal with
      | |- context [handle_control_command ?e ?q ?s0] =>
          pose proof (handle_control_command_unchanged e q s0) as Hc;
          destruct (handle_control_command e q s0) as [r s2]
      end. simpl in *. intros _. exact Hc.
Qed.

Lemma command_handler_changes_session_witness :
  snd (command_handler offline_env "Search the web for rocq" reading_session)
  = reading_session.
Proof.
  apply (command_handler_changes_session offline_env "Search the web for rocq"
           reading_session); [reflexivity | discriminate | discriminate].
Defined.

Lemma handle_open_file_language (env : Env) (file_name command : string)
  (s : Session) :
  contains "transcribe" command = false ->
  translation_language (snd (handle_open_file env file_name command s))
  = translation_language s.
Proof.
  intros Hno.
  destruct (handle_open_file_cases env file_name command s) as [[_ Hs]|[Hst _]].
  - now rewrite Hs.
  - destruct (handle_open_file_text env file_name command s Hno Hst)
      as (text & _ & _ & ->). reflexivity.
Qed.

Lemma handle_control_command_language (env : Env) (command : string) (s : Session) :
  translation_language (snd (handle_control_command env command s))
  = translation_language s.
Proof.
  unfold handle_control_command.
  repeat match goal with
         | |- context [if ?b then _ else _] => destruct b; simpl
         end; reflexivity.
Qed.

(** X14.  The target language of the session changes only on a command
    that mentions [translate] or [transcribe]: every other command, the
    reset and the opening of a document included, leaves it as it was. *)
Theorem command_handler_keeps_language (env : Env) (question0 : string)
  (s : Session) :
  contains "translate" (lower (strip question0)) = false ->
  contains "transcribe" (lower (strip question0)) = false ->
  translation_language (snd (command_handler env question0 s))
  = translation_language s.
Proof.
  intros Htl Htc. unfold command_handler.
  set (question := lower (strip question0)) in *.
  unfold is_youtube_transcription. rewrite Htl, Htc. cbn [orb andb].
  destruct (mem question _); [reflexivity|].
  destruct (if is_youtube_playback question then _ else _); [reflexivity|].
  unfold dispatch_rest.
  destruct (handle_web_action_command question); [reflexivity|].
  destruct (truthy_opt _ && contains_any _ _).
  - unfold file_branch.
    pose proof (extract_language_codes_session (LANGUAGES env) question s) as Hs1.
    destruct (extract_language_codes _ _ s) as [codes s1].
    simpl in Hs1. subst s1. cbv beta iota.
    match goal with
    | |- context [handle_open_file ?e ?f ?q ?s0] =>
        pose proof (handle_open_file_language e f q s0 Htc) as Hl;
        destruct (handle_open_file e f q s0) as [r s2]
    end. exact Hl.
  - destruct (contains "translate to" question) eqn:Hto.
    + apply (contains_app_l "translate" " to") in Hto. congruence.
    + destruct (is_control question); [|reflexivity].
      unfold control_branch.
      match goal with
      | |- context [handle_control_command ?e ?q ?s0] =>
          pose proof (handle_control_command_language e q s0) as Hl;
          destruct (handle_control_command e q s0) as [r s2]
      end. exact Hl.
Qed.

Lemma command_handler_keeps_language_witness :
  translation_language
    (snd (command_handler notes_env "open notes.txt" reading_session))
  = "es".
Proof.
  apply (command_handler_keeps_language notes_env "open notes.txt"
           reading_session); reflexivity.
Defined.

(** X15.  Every response of the dispatcher carries the field
    [has_content], on every branch and for every command. *)
Theorem command_handler_has_content_field (env : Env) (question0 : string)
  (s : Session) :
  exists b, has_content (fst (command_handler env question0 s)) = Some b.
Proof.
  unfold command_handler.
  destruct (mem _ _); [now eexists|].
  destruct (if is_youtube_playback _ then _ else _); [now eexists|].
  destruct (is_youtube_transcription _).
  - unfold youtube_transcription_branch.
    destruct (extract_language_codes _ _ s) as [[t src] s1].
    destruct (negb _); [now eexists|].
    destruct (transcribe_youtube_audio_real _ _ _ _ _) as [[r|e] s2]; now eexists.
  - unfold dispatch_rest.
    destruct (handle_web_action_command _); [now eexists|].
    destruct (truthy_opt _ && contains_any _ _).
    + unfold file_branch.
      destruct (extract_language_codes _ _ s) as [codes s1].
      destruct (handle_open_file _ _ _ _) as [r s2]. now eexists.
    + destruct (contains "translate to" _).
      * unfold translation_branch.
        destruct (handle_translation_command _ _ _) as [r s2]. now eexists.
      * destruct (is_control _); [|now eexists].
        unfold control_branch.
        destruct (handle_control_command _ _ _) as [r s2]. now eexists.
Qed.

(** ** After a reset *)

(** X16.  After a reset nothing is left to read: a request for the next
    chunk answers [done] with an empty chunk, no control command answers
    [start_read], and neither changes the session; a second reset gives
    the same response and the same session. *)
Theorem after_reset (env : Env) (size : Z) (command : string) (s : Session) :
  let s0 := snd (handle_reset_command s) in
  get_next_chunk env size s0
  = (mkResponse status_done None (Some "") None, s0) /\
  action (fst (handle_control_command env command s0)) <> Some start_read /\
  snd (handle_control_command env command s0) = s0 /\
  handle_reset_command s0 = (fst (handle_reset_command s), s0).
Proof.
  cbv zeta. simpl. split; [reflexivity|].
  assert (H : action (fst (handle_control_command env command
                             (mkSession "" 0 (translation_language s))))
              <> Some start_read).
  { unfold handle_control_command. simpl.
    repeat match goal with
           | |- context [if ?b then _ else _] => destruct b; simpl
           end; discriminate. }
  split; [exact H|]. split; [|reflexivity].
  now apply handle_control_command_unchanged.
Qed.

(** ** Occurrences of a text in another *)

Lemma append_assoc (a b c : string) : (a ++ b) ++ c = a ++ b ++ c.
Proof. induction a as [|x a IH]; simpl; [reflexivity | now rewrite IH]. Qed.

Lemma append_empty_r (a : string) : a ++ "" = a.
Proof. induction a as [|x a IH]; simpl; [reflexivity | now rewrite IH]. Qed.

Lemma drop_append (a b : string) : drop (String.length a) (a ++ b) = b.
Proof. induction a as [|x a IH]; simpl; [reflexivity | exact IH]. Qed.

Lemma startswith_iff (p s : string) :
  startswith p s = true <-> exists r, s = p ++ r.
Proof.
  revert s. induction p as [|a p IH]; intros s; simpl.
  - split; [intros _; now exists s | reflexivity].
  - destruct s as [|b s].
    + split; [discriminate | intros [r Hr]; discriminate].
    + split.
      * intros H. apply andb_prop in H as [Hab Hp].
        apply Ascii.eqb_eq in Hab. subst b.
        apply IH in Hp as [r ->]. now exists r.
      * intros [r Hr]. injection Hr as -> ->.
        rewrite Ascii.eqb_refl. simpl. apply IH. now exists r.
Qed.

Lemma split_first_some (sep s a b : string) :
  split_first sep s = Some (a, b) -> s = a ++ sep ++ b.
Proof.
  revert a. induction s as [|c s IH]; intros a; simpl.
  - destruct (startswith sep "") eqn:E; [|discriminate].
    intros H. injection H as <- <-.
    apply startswith_iff in E as [r Hr].
    destruct sep; [reflexivity | discriminate].
  - destruct (startswith sep (String c s)) eqn:E.
    + intros H. injection H as <- <-.
      apply startswith_iff in E as [r Hr]. rewrite Hr at 2.
      rewrite drop_append. exact Hr.
    + destruct (split_first sep s) as [[a' b']|]; [|discriminate].
      intros H. injection H as <- <-. simpl. f_equal. now apply IH.
Qed.

Lemma split_first_none (sep s : string) :
  split_first sep s = None -> contains sep s = false.
Proof.
  induction s as [|c s IH]; simpl.
  - destruct (startswith sep ""); [discriminate | reflexivity].
  - destruct (startswith sep (String c s)); [discriminate|].
    destruct (split_first sep s) as [[a b]|]; [discriminate|].
    intros _. simpl. now apply IH.
Qed.

Lemma contains_iff (x s : string) : contains x s = true <-> substr x s.
Proof.
  split.
  - induction s as [|c s IH]; simpl; intros H.
    + apply orb_prop in H as [H|H]; [|discriminate].
      apply startswith_iff in H as [r Hr]. now exists "", r.
    + apply orb_prop in H as [H|H].
      * apply startswith_iff in H as [r Hr]. now exists "", r.
      * destruct (IH H) as (l & r & ->). now exists (String c l), r.
  - intros (l & r & ->). induction l as [|c l IH]; simpl.
    + assert (H : startswith x (x ++ r) = true)
        by (apply startswith_iff; now exists r).
      destruct (x ++ r); simpl in *; now rewrite H.
    + rewrite IH. apply orb_true_r.
Qed.

Lemma substr_refl (s : string) : substr s s.
Proof. exists "", "". simpl. now rewrite append_empty_r. Qed.

Lemma substr_trans (a b c : string) : substr a b -> substr b c -> substr a c.
Proof.
  intros (l1 & r1 & ->) (l2 & r2 & ->).
  exists (l2 ++ l1), (r1 ++ r2). now rewrite !append_assoc.
Qed.

Lemma contains_substr (x a s : string) :
  substr a s -> contains x a = true -> contains x s = true.
Proof.
  intros Has Hx. apply contains_iff. apply contains_iff in Hx.
  eapply substr_trans; eassumption.
Qed.

Lemma not_contains_substr (x a s : string) :
  substr a s -> contains x s = false -> contains x a = false.
Proof.
  intros Has Hs. destruct (contains x a) eqn:E; [|reflexivity].
  now rewrite (contains_substr x a s Has E) in Hs.
Qed.

Lemma substr_drop (n : nat) (s : string) : substr (drop n s) s.
Proof.
  exists (take n s), "". now rewrite append_empty_r, take_drop.
Qed.

Lemma substr_lstrip (s : string) : substr (lstrip s) s.
Proof.
  induction s as [|c s IH]; simpl.
  - apply substr_refl.
  - destruct (is_space c); [|apply substr_refl].
    destruct IH as (l & r & Hs). exists (String c l), r. simpl. now f_equal.
Qed.

Lemma rstrip_with_prefix (p : ascii -> bool) (s : string) :
  exists r, s = rstrip_with p s ++ r.
Proof.
  induction s as [|c s [r Hr]]; simpl.
  - now exists "".
  - destruct (rstrip_with p s) as [|d t] eqn:E.
    + destruct (p c).
      * now exists (String c s).
      * exists s. reflexivity.
    + exists r. simpl. now rewrite Hr at 1.
Qed.

Lemma substr_rstrip_with (p : ascii -> bool) (s : string) :
  substr (rstrip_with p s) s.
Proof. destruct (rstrip_with_prefix p s) as [r Hr]. now exists "", r. Qed.

Lemma substr_strip (s : string) : substr (strip s) s.
Proof.
  unfold strip. eapply substr_trans; [apply substr_rstrip_with | apply substr_lstrip].
Qed.

Lemma substr_before_first (sep s : string) : substr (before_first sep s) s.
Proof.
  unfold before_first. destruct (split_first sep s) as [[a b]|] eqn:E.
  - apply split_first_some in E. exists "", (sep ++ b). exact E.
  - apply substr_refl.
Qed.

Lemma substr_after_first (sep s : string) :
  contains sep s = true -> substr (after_first sep s) s.
Proof.
  unfold after_first. intros Hc.
  destruct (split_first sep s) as [[a b]|] eqn:E.
  - apply split_first_some in E. exists (a ++ sep), "".
    now rewrite append_empty_r, append_assoc.
  - apply split_first_none in E. congruence.
Qed.

Lemma substr_clean_command (exts : list string) (command : string) :
  substr (clean_command_of exts command) command.
Proof.
  induction exts as [|ext r IH]; simpl.
  - apply substr_refl.
  - destruct (contains ext command); [|exact IH].
    eapply substr_trans; [apply substr_strip | apply substr_before_first].
Qed.

Lemma substr_cut_at_separators (seps : list string) (candidate : string) :
  substr (cut_at_separators seps candidate) candidate.
Proof.
  revert candidate. induction seps as [|sep r IH]; intros candidate; simpl.
  - apply substr_refl.
  - eapply substr_trans; [apply IH|].
    destruct (contains sep candidate);
      [apply substr_before_first | apply substr_refl].
Qed.

(** ** Defaults of the language-pair extraction *)

Lemma explicit_target_needs_translate (table : list (string * string))
  (command : string) :
  contains "translate" (lower command) = false ->
  explicit_target table command = None.
Proof.
  intros Hno. unfold explicit_target.
  destruct (contains "translate to" _) eqn:E; [|reflexivity].
  apply (contains_app_l "translate" " to") in E.
  apply (contains_substr _ _ (lower command)) in E;
    [congruence | apply substr_clean_command].
Qed.

(** Steps 4 and 5 of the extraction on a command that mentions
    [transcribe]: some source code comes out. *)
Lemma source_after_defaults (source_code : option string) (hindi : bool) :
  (let source_code :=
     if (opt_eqb source_code "hi" || true && is_none source_code) && hindi
     then Some "hi-IN" else source_code in
   if is_none source_code && true then Some "en" else source_code) <> None.
Proof.
  destruct source_code as [x|]; simpl.
  - destruct ((String.eqb x "hi" || false) && hindi); discriminate.
  - destruct hindi; discriminate.
Qed.

(** X17.  What [extract_language_codes] returns when the command leaves a
    language out.  A command that mentions [transcribe] always gets both
    codes, the source being [en] when nothing else was found.  A command
    that mentions neither [transcribe] nor [translate] gets no target.  A
    command that mentions [hindi] or [hinglish] never gets the plain code
    [hi] as its source: the regional code [hi-IN] takes its place. *)
Theorem extract_language_codes_defaults (table : list (string * string))
  (command : string) (s : Session) :
  let codes := fst (extract_language_codes table command s) in
  (contains "transcribe" (lower command) = true ->
   fst codes <> None /\ snd codes <> None) /\
  (contains "transcribe" (lower command) = false ->
   contains "translate" (lower command) = false ->
   fst codes = None) /\
  (contains "hindi" (lower command) || contains "hinglish" (lower command) = true ->
   snd codes <> Some "hi").
Proof.
  cbv zeta. split; [|split].
  - intros Htc. unfold extract_language_codes. cbn [fst snd].
    rewrite Htc. cbn [orb andb]. split.
    + destruct (get_language_code _ _) eqn:E1;
        destruct (contains "translate to" _); simpl; discriminate.
    + exact (source_after_defaults _ _).
  - intros Htc Htl. rewrite extract_language_codes_target.
    unfold defaults_to_session_target.
    rewrite Htc, Htl, andb_false_r.
    now apply explicit_target_needs_translate.
  - intros Hhindi. unfold extract_language_codes. cbn [fst snd].
    rewrite Hhindi, andb_true_r.
    match goal with
    | |- context [opt_eqb ?src "hi"] => generalize src
    end.
    intros src.
    destruct (contains "transcribe" (lower command)); cbn [andb].
    + destruct src as [x|]; simpl.
      * rewrite orb_false_r.
        destruct (String.eqb x "hi") eqn:E; simpl; [discriminate|].
        apply String.eqb_neq in E. congruence.
      * discriminate.
    + rewrite orb_false_r, andb_false_r.
      destruct src as [x|]; simpl; [|discriminate].
      destruct (String.eqb x "hi") eqn:E; simpl; [discriminate|].
      apply String.eqb_neq in E. congruence.
Qed.

Lemma extract_language_codes_defaults_witness :
  snd (fst (extract_language_codes googletrans_LANGUAGES
              "translate from hindi lecture.mp4" initial_session))
  <> Some "hi".
Proof.
  destruct (extract_language_codes_defaults googletrans_LANGUAGES
              "translate from hindi lecture.mp4" initial_session) as (_ & _ & H).
  apply H. reflexivity.
Defined.

(** ** The file name of a command *)

Lemma rstrip_with_idem (p : ascii -> bool) (s : string) :
  rstrip_with p (rstrip_with p s) = rstrip_with p s.
Proof.
  induction s as [|c s IH]; simpl; [reflexivity|].
  destruct (rstrip_with p s) as [|d t] eqn:E.
  - destruct (p c) eqn:Ep; simpl; [reflexivity | now rewrite Ep].
  - simpl in *. destruct (rstrip_with p t) as [|d' t'] eqn:E'.
    + destruct (p d); [discriminate|]. now rewrite IH.
    + now rewrite IH.
Qed.

Lemma filename_loop_some (keywords : list string) (command f : string) :
  filename_loop keywords command = Some f ->
  exists keyword candidate,
    In keyword keywords /\
    contains keyword command = true /\
    candidate = cut_at_separators [" and "; " to "; " in "; " from "]
                  (strip (after_first keyword command)) /\
    contains "." candidate = true /\
    3 < len candidate /\
    f = rstrip_dot (strip candidate).
Proof.
  induction keywords as [|keyword r IH]; simpl; [discriminate|].
  destruct (contains keyword command) eqn:Hk.
  - destruct (contains "." _ && (3 <? len _)) eqn:Hc.
    + intros H. injection H as <-.
      apply andb_prop in Hc as [Hdot Hlen]. apply Z.ltb_lt in Hlen.
      eexists keyword, _. repeat split; try eassumption; auto.
    + intros H. destruct (IH H) as (k & c & Hin & Hrest).
      exists k, c. split; [now right | exact Hrest].
  - intros H. destruct (IH H) as (k & c & Hin & Hrest).
    exists k, c. split; [now right | exact Hrest].
Qed.

Lemma filename_loop_no_dot (keywords : list string) (command : string) :
  contains "." command = false -> filename_loop keywords command = None.
Proof.
  intros Hno. destruct (filename_loop keywords command) as [f|] eqn:E;
    [|reflexivity].
  destruct (filename_loop_some _ _ _ E) as (k & c & _ & Hk & -> & Hdot & _).
  apply (contains_substr "." _ command) in Hdot; [congruence|].
  eapply substr_trans; [apply substr_cut_at_separators|].
  eapply substr_trans; [apply substr_strip | now apply substr_after_first].
Qed.

(** X18.  [extract_filename_from_command] works on the command in lower
    case with the spoken [ dot ], [ point ] and [ mp 4] replaced.  When
    that text has no dot, no file name is extracted.  A file name that is
    extracted is a part of that text standing after one of the keywords,
    it comes from a candidate with a dot and more than three characters,
    and it does not end with a dot. *)
Theorem extract_filename_from_command_shape (command : string) :
  let normalised :=
    replace " mp 4" " mp4"
      (replace " point " "." (replace " dot " "." (lower command))) in
  (contains "." normalised = false ->
   extract_filename_from_command command = None) /\
  (forall f,
      extract_filename_from_command command = Some f ->
      substr f normalised /\
      rstrip_dot f = f /\
      exists keyword candidate,
        In keyword file_keywords /\
        contains keyword normalised = true /\
        substr candidate (after_first keyword normalised) /\
        contains "." candidate = true /\ 3 < len candidate /\
        f = rstrip_dot (strip candidate)).
Proof.
  cbv zeta. unfold extract_filename_from_command.
  set (normalised := replace " mp 4" " mp4" _).
  split; [apply filename_loop_no_dot|].
  intros f Hf.
  destruct (filename_loop_some _ _ _ Hf) as (k & c & Hin & Hk & Hc & Hdot & Hlen & ->).
  assert (Hcand : substr c (strip (after_first k normalised)))
    by (rewrite Hc; apply substr_cut_at_separators).
  split; [|split].
  - eapply substr_trans; [apply substr_rstrip_with|].
    eapply substr_trans; [apply substr_strip|].
    eapply substr_trans; [exact Hcand|].
    eapply substr_trans; [apply substr_strip | now apply substr_after_first].
  - apply rstrip_with_idem.
  - exists k, c. repeat split; try assumption.
    eapply substr_trans; [exact Hcand | apply substr_strip].
Qed.

Lemma extract_filename_from_command_shape_witness :
  extract_filename_from_command "read the report please" = None.
Proof.
  destruct (extract_filename_from_command_shape "read the report please")
    as [H _].
  apply H. reflexivity.
Defined.

(** ** Words *)

Lemma has_char_app (c : ascii) (a b : string) :
  has_char c (a ++ b) = has_char c a || has_char c b.
Proof.
  induction a as [|x a IH]; simpl; [reflexivity|].
  now rewrite IH, orb_assoc.
Qed.

Lemma words_aux_are_words (s acc : string) :
  acc = "" \/ is_word acc -> Forall is_word (words_aux acc s).
Proof.
  revert acc. induction s as [|c s IH]; intros acc Hacc; simpl.
  - destruct (truthy acc) eqn:Ht; [|constructor].
    apply truthy_true_iff in Ht. constructor; [|constructor].
    destruct Hacc as [->|H]; [congruence | exact H].
  - destruct (is_space c) eqn:Hc.
    + destruct (truthy acc) eqn:Ht.
      * apply truthy_true_iff in Ht. constructor.
        -- destruct Hacc as [->|H]; [congruence | exact H].
        -- apply IH. now left.
      * apply IH. now left.
    + apply IH. right. split.
      * destruct acc; discriminate.
      * intros d Hd. rewrite has_char_app in Hd. simpl in Hd.
        rewrite orb_false_r in Hd. apply orb_prop in Hd as [Hd|Hd].
        -- destruct Hacc as [->|[_ H]]; [discriminate | now apply H].
        -- apply Ascii.eqb_eq in Hd. now subst d.
Qed.

Lemma words_are_words (s : string) : Forall is_word (words s).
Proof. apply words_aux_are_words. now left. Qed.

Lemma words_aux_app_word (w acc s : string) :
  (forall c, has_char c w = true -> is_space c = false) ->
  words_aux acc (w ++ s) = words_aux (acc ++ w) s.
Proof.
  revert acc. induction w as [|x w IH]; intros acc Hw; simpl.
  - now rewrite append_empty_r.
  - rewrite (Hw x) by (simpl; now rewrite Ascii.eqb_refl).
    rewrite IH.
    + now rewrite append_assoc.
    + intros c Hc. apply Hw. simpl. rewrite Hc. apply orb_true_r.
Qed.

(** Splitting what was joined with single blanks gives the words back. *)
Lemma words_join (ws : list string) :
  Forall is_word ws -> words (join " " ws) = ws.
Proof.
  induction ws as [|w ws IH]; intros H; [reflexivity|].
  inversion H as [|w' ws' [Hne Hw] Hws]; subst.
  apply truthy_true_iff in Hne.
  destruct ws as [|w2 ws].
  - unfold words. simpl.
    rewrite <- (append_empty_r w) at 1.
    rewrite (words_aux_app_word w "" "" Hw). simpl. now rewrite Hne.
  - unfold words.
    change (join " " (w :: w2 :: ws)) with (w ++ " " ++ join " " (w2 :: ws)).
    rewrite (words_aux_app_word w "" _ Hw).
    change ("" ++ w) with w.
    change (" " ++ join " " (w2 :: ws)) with (String " " (join " " (w2 :: ws))).
    cbn [words_aux]. change (is_space " ") with true. cbn iota.
    rewrite Hne. f_equal. apply (IH Hws).
Qed.

Lemma words_aux_nil (s acc : string) :
  words_aux acc s = [] -> acc = "" /\ all_space s = true.
Proof.
  revert acc. induction s as [|c s IH]; intros acc; simpl.
  - destruct (truthy acc) eqn:Ht; [discriminate|].
    apply truthy_false_iff in Ht. now split.
  - destruct (is_space c).
    + destruct (truthy acc) eqn:Ht; [discriminate|].
      apply truthy_false_iff in Ht. intros H. split; [exact Ht|].
      now apply (IH "").
    + intros H. apply IH in H as [H _]. destruct acc; discriminate.
Qed.

Lemma rstrip_space_not_blank (s : string) :
  rstrip_with is_space s <> "" -> all_space (rstrip_with is_space s) = false.
Proof.
  induction s as [|c s IH]; simpl; [congruence|].
  destruct (rstrip_with is_space s) as [|d t] eqn:E.
  - destruct (is_space c) eqn:Hc; [congruence|]. intros _. simpl. now rewrite Hc.
  - intros _. simpl. simpl in IH. rewrite IH by discriminate.
    apply andb_false_r.
Qed.

Lemma join_words_not_empty (ws : list string) :
  Forall is_word ws -> ws <> [] -> join " " ws <> "".
Proof.
  intros H Hne. destruct ws as [|w ws]; [congruence|].
  inversion H as [|w' ws' [Hw _] _]; subst.
  destruct w; [congruence|]. destruct ws; discriminate.
Qed.

(** ** The query of a YouTube command *)

(** X19.  A query that [extract_youtube_query] returns is never empty and
    is made of words separated by single blanks, with no white space
    before or after: splitting it into words and joining them with one
    blank gives it back.  So [handle_youtube_command] gives up exactly
    when no query is returned. *)
Theorem extract_youtube_query_shape (env : Env) (command q : string) :
  extract_youtube_query (LANGUAGES env) command = Some q ->
  q <> "" /\
  Forall is_word (words q) /\
  join " " (words q) = q /\
  handle_youtube_command env command <> None.
Proof.
  intros Hq.
  assert (Hshape : q <> "" /\ Forall is_word (words q) /\ join " " (words q) = q).
  { revert Hq. unfold extract_youtube_query.
    match goal with
    | |- context [truthy (strip ?x)] => generalize x
    end.
    intros x. unfold strip at 1 2.
    destruct (truthy _) eqn:Ht; [|discriminate].
    intros H. injection H as <-.
    apply truthy_true_iff in Ht.
    pose proof (words_are_words (strip x)) as Hw.
    assert (Hne : words (strip x) <> []).
    { intros E. apply words_aux_nil in E as [_ E].
      unfold strip in E. rewrite rstrip_space_not_blank in E;
        [discriminate | exact Ht]. }
    split; [now apply join_words_not_empty|].
    rewrite words_join by exact Hw. split; [exact Hw | reflexivity]. }
  destruct Hshape as (Hne & Hw & Hjoin).
  repeat split; try assumption.
  unfold handle_youtube_command. rewrite Hq. simpl.
  apply truthy_true_iff in Hne. rewrite Hne. simpl.
  destruct (REQUESTS_AVAILABLE env); simpl; [|discriminate].
  destruct (truthy_opt _); discriminate.
Qed.

Lemma extract_youtube_query_shape_witness :
  handle_youtube_command offline_env "play   lo-fi  beats on youtube" <> None.
Proof.
  apply (extract_youtube_query_shape offline_env
           "play   lo-fi  beats on youtube" "lo-fi beats").
  vm_compute. reflexivity.
Defined.

(** ** Characters that an operation keeps *)

Lemma contains_char (c : ascii) (s : string) :
  contains (String c "") s = has_char c s.
Proof.
  induction s as [|a s IH]; simpl; [reflexivity|].
  rewrite IH. rewrite (Ascii.eqb_sym c a).
  destruct (Ascii.eqb a c); [|reflexivity].
  now destruct s.
Qed.

Lemma has_char_lstrip (c : ascii) (s : string) :
  is_space c = false -> has_char c (lstrip s) = has_char c s.
Proof.
  intros Hc. induction s as [|a s IH]; simpl; [reflexivity|].
  destruct (is_space a) eqn:Ha; [|reflexivity].
  rewrite IH. destruct (Ascii.eqb a c) eqn:E; [|reflexivity].
  apply Ascii.eqb_eq in E. congruence.
Qed.

Lemma has_char_rstrip_with (p : ascii -> bool) (c : ascii) (s : string) :
  p c = false -> has_char c (rstrip_with p s) = has_char c s.
Proof.
  intros Hc. induction s as [|a s IH]; simpl; [reflexivity|].
  destruct (rstrip_with p s) as [|d t] eqn:E.
  - rewrite <- IH. simpl. rewrite orb_false_r.
    destruct (p a) eqn:Ha; simpl; [|now rewrite orb_false_r].
    destruct (Ascii.eqb a c) eqn:Eac; [|reflexivity].
    apply Ascii.eqb_eq in Eac. congruence.
  - simpl. simpl in IH. now rewrite IH.
Qed.

Lemma has_char_strip (c : ascii) (s : string) :
  is_space c = false -> has_char c (strip s) = has_char c s.
Proof.
  intros Hc. unfold strip.
  now rewrite has_char_rstrip_with, has_char_lstrip.
Qed.

Lemma startswith_take (p s : string) :
  startswith p s = true -> take (String.length p) s = p.
Proof.
  intros H. apply startswith_iff in H as [r ->].
  induction p as [|a p IH]; simpl; [reflexivity | now rewrite IH].
Qed.

(** Deleting the occurrences of [old] keeps every character that is not
    in [old]. *)
Lemma has_char_delete_aux (old : string) (c : ascii) (s : string) (skip : nat) :
  old <> "" ->
  has_char c old = false ->
  has_char c (take skip s) = false ->
  has_char c (replace_aux old "" skip s) = has_char c s.
Proof.
  intros Hne Hold. revert skip. induction s as [|a s IH]; intros skip Hskip; simpl.
  - reflexivity.
  - destruct skip as [|k].
    + destruct (startswith old (String a s)) eqn:E.
      * simpl. destruct old as [|o old']; [congruence|]. simpl in *.
        apply andb_prop in E as [Eo E']. apply Ascii.eqb_eq in Eo. subst o.
        apply orb_false_elim in Hold as [Ha Hold'].
        rewrite Ha. simpl. rewrite Nat.sub_0_r.
        apply IH. now rewrite (startswith_take _ _ E').
      * simpl. now rewrite (IH 0%nat).
    + simpl in Hskip. apply orb_false_elim in Hskip as [Ha Hk].
      rewrite Ha. simpl. now apply IH.
Qed.

Lemma has_char_delete (old : string) (c : ascii) (s : string) :
  old <> "" -> has_char c old = false ->
  has_char c (replace old "" s) = has_char c s.
Proof.
  intros Hne Hold. unfold replace. now apply has_char_delete_aux.
Qed.

Lemma has_char_words_aux (c : ascii) (s acc w : string) :
  In w (words_aux acc s) -> has_char c w = true ->
  has_char c acc || has_char c s = true.
Proof.
  revert acc. induction s as [|a s IH]; intros acc Hin Hw; simpl in *.
  - destruct (truthy acc); [|contradiction].
    destruct Hin as [<-|[]]. now rewrite Hw.
  - destruct (is_space a).
    + destruct (truthy acc).
      * destruct Hin as [<-|Hin]; [now rewrite Hw|].
        specialize (IH "" Hin Hw). simpl in IH. rewrite IH.
        now rewrite !orb_true_r.
      * specialize (IH "" Hin Hw). simpl in IH. rewrite IH.
        now rewrite !orb_true_r.
    + specialize (IH _ Hin Hw). rewrite has_char_app in IH. simpl in IH.
      rewrite orb_false_r in IH. now rewrite orb_assoc.
Qed.

Lemma has_char_join (c : ascii) (ws : list string) :
  has_char c (join " " ws) = true ->
  c = " "%char \/ exists w, In w ws /\ has_char c w = true.
Proof.
  induction ws as [|w ws IH]; simpl; [discriminate|].
  destruct ws as [|w2 ws].
  - intros H. right. exists w. now split; [left|].
  - rewrite has_char_app. intros H. apply orb_prop in H as [H|H].
    + right. exists w. now split; [left|].
    + change (" " ++ join " " (w2 :: ws)) with (String " " (join " " (w2 :: ws))) in H.
      cbn [has_char] in H. apply orb_prop in H as [H|H].
      * left. apply Ascii.eqb_eq in H. now subst c.
      * destruct (IH H) as [Hc|(x & Hin & Hx)]; [now left|].
        right. exists x. split; [now right | exact Hx].
Qed.

Lemma In_skipn {A : Type} (x : A) (n : nat) (l : list A) :
  In x (skipn n l) -> In x l.
Proof.
  intros H. rewrite <- (firstn_skipn n l). apply in_or_app. now right.
Qed.

(** ** The file name of a command in the desktop assistant *)

Lemma keyword_loop_some (keywords ws : list string) (f : string) :
  Desktop.keyword_loop keywords ws = Some f ->
  contains "." f = true /\ 3 < len f /\
  exists n, f = join " " (skipn n ws).
Proof.
  revert f.
  induction keywords as [|k r IH]; intros f; cbn [Desktop.keyword_loop];
    [discriminate|].
  destruct (mem k ws); [|apply IH].
  destruct (contains "." _ && (3 <? len _)) eqn:E; [|apply IH].
  intros H. injection H as <-. apply andb_prop in E as [Hdot Hlen].
  apply Z.ltb_lt in Hlen. repeat split; try assumption.
  now exists (S (Desktop.index k ws)).
Qed.

(** X20.  The file name extraction of the desktop assistant returns a name
    exactly when the command has a dot: every name it returns has a dot,
    and it returns none only for a command without one. *)
Theorem desktop_extract_filename_dot (command : string) :
  (forall f, Desktop.extract_filename_from_command command = Some f ->
             contains "." f = true) /\
  (Desktop.extract_filename_from_command command = None <->
   contains "." (lower command) = false).
Proof.
  unfold Desktop.extract_filename_from_command.
  assert (Hfallback :
    contains "." (strip (replace "read" "" (replace "open" "" (lower command))))
    = contains "." (lower command)).
  { rewrite !contains_char, has_char_strip by reflexivity.
    rewrite !has_char_delete; try reflexivity; discriminate. }
  destruct (Desktop.keyword_loop _ _) as [f|] eqn:E.
  - destruct (keyword_loop_some _ _ _ E) as (Hdot & _ & n & Hf).
    split; [intros f' H; now injection H as <-|].
    split; [discriminate|].
    intros Hno. exfalso.
    rewrite contains_char in Hdot, Hno. rewrite Hf in Hdot.
    apply has_char_join in Hdot as [Hc|(w & Hin & Hw)]; [discriminate|].
    apply In_skipn in Hin.
    pose proof (has_char_words_aux _ _ _ _ Hin Hw) as H.
    simpl in H. congruence.
  - rewrite Hfallback.
    destruct (contains "." (lower command)) eqn:Hc.
    + split; [intros f H; injection H as <-; now rewrite Hfallback|].
      split; discriminate.
    + split; [discriminate | split; reflexivity].
Qed.

Lemma desktop_extract_filename_dot_witness :
  Desktop.extract_filename_from_command "Read the report please" = None.
Proof.
  destruct (desktop_extract_filename_dot "Read the report please") as [_ H].
  apply H. reflexivity.
Defined.

(** ** What the dispatcher reports, what a failure leaves *)



(** The route either answers from its [except] clause, with the session
    as it was, or does what [command_handler] does. *)
Lemma post_command_question_cases (env : Env) (faults : Faults)
  (question0 : string) (s : Session) :
  post_command_question env faults question0 s = (server_error, s) \/
  post_command_question env faults question0 s = command_handler env question0 s.
Proof.
  unfold post_command_question, command_handler, dispatch_rest.
  destruct (mem _ _); [now right|].
  destruct (if is_youtube_playback _ then _ else _); [now right|].
  destruct (is_youtube_transcription _).
  - destruct (truthy_opt _ && _); [now left | now right].
  - destruct (handle_web_action_command _); [now right|].
    destruct (truthy_opt _ && contains_any _ _); [|now right].
    destruct (handle_open_file_raises _ _ _ _); [now left | now right].
Qed.


(** The invariant of the session is kept by the route as well. *)
Lemma session_inv_post_command (env : Env) (faults : Faults) (body : RequestBody)
  (s : Session) :
  session_inv s -> session_inv (snd (post_command env faults body s)).
Proof.
  intros H. unfold post_command.
  destruct (body_question body) as [question0|]; [|exact H].
  destruct (post_command_question_cases env faults question0 s) as [-> | ->];
    [exact H | now apply session_inv_command_handler].
Qed.

(** A request whose question is [null], sent while a text is loaded: the
    [except] clause answers that there is no content. *)
Example null_question_reports_no_content :
  post_command offline_env no_faults OtherQuestion reading_session
  = (mkResponse status_error None None (Some false), reading_session).
Proof. reflexivity. Qed.

(** The folder cannot be listed while a missing file is asked for. *)
Example listdir_failure_reports_no_content :
  post_command offline_env (mkFaults true false false false)
    (StringQuestion "open notes.txt") reading_session
  = (mkResponse status_error None None (Some false), reading_session).
Proof. vm_compute. reflexivity. Qed.



(** X22.  A transcription that returns anything but a [success] response
    leaves the session as it was, in the local pipeline and in the remote
    one: a missing library, a video that is not found or has no audio
    stream, a failed download, speech that is not recognised, a failing
    detector or translator, and in the local pipeline an empty result. *)
Theorem transcription_error_keeps_session (env : Env) (name target source : string)
  (s : Session) :
  (status (fst (transcribe_video_audio env name target source s))
   <> status_success ->
   snd (transcribe_video_audio env name target source s) = s) /\
  (forall response,
      fst (transcribe_youtube_audio_real env name target source s) = Ok response ->
      status response <> status_success ->
      snd (transcribe_youtube_audio_real env name target source s) = s).
Proof.
  split.
  - apply transcribe_video_audio_failure.
  - intros response. apply transcribe_youtube_audio_real_error.
Qed.

Lemma transcription_error_keeps_session_witness :
  snd (transcribe_video_audio offline_env "clip.mp4" "en" "en" reading_session)
  = reading_session.
Proof.
  destruct (transcription_error_keeps_session offline_env "clip.mp4" "en" "en"
              reading_session) as [H _].
  apply H. discriminate.
Defined.
